(** * auto-yt-notify: subscription registry and notification pipeline

    A shallow embedding of the two implementations the repository holds,
    [src/lib.ts] with its router (the [YoutubeNotifier] class) and
    [src/utils.ts] with its router, and the properties of the registry
    (list, add, remove, renew), of the hub client, of the signature check and
    of the feed classifier.

    Layout: JavaScript values and JSON, strings, the valibot combinators the
    schemas are written with, the outside world (KV store, network, clock,
    XML parser, WebCrypto) and the monad the asynchronous code runs in; then
    one module per implementation; then the theorems. *)

From Stdlib Require Import ZArith Lia Ascii String.
From Stdlib.Strings Require Import Byte.
From stdpp Require Import base option list strings gmap pretty.

Set Warnings "-register-all".
Arguments String.append !s1 s2 : simpl nomatch.
Open Scope string_scope.
Open Scope list_scope.
Open Scope Z_scope.

(** ** JavaScript values *)

(** Numbers.  [Finite n] is a finite number other than [-0]: the code makes
    and compares integers only (time values, seconds, lengths), and a finite
    number is taken to be one; which integers a double holds plays no part.
    The other numbers are the ones that behave differently: [-0], the two
    infinities and [NaN]. *)
Inductive number : Type :=
| Finite (n : Z)
| NegZero
| PosInfinity
| NegInfinity
| NaN.

Coercion Finite : Z >-> number.

(** The values the code handles at run time.  [VDate None] is an invalid
    date; [VFun] is a function object, which no property of this development
    looks into. *)
Inductive jsval : Type :=
| VUndefined
| VNull
| VBool (b : bool)
| VNum (x : number)
| VStr (s : string)
| VDate (t : option Z)
| VFun
| VArr (l : list jsval)
| VObj (fs : list (string * jsval)).

(** JSON values: what a JSON text denotes and [JSON.parse] returns.  A number
    literal is given by the number it is read as: a literal too large for a
    double, [1e400] say, is read as [PosInfinity], and [-0] as [NegZero]; no
    literal is read as [NaN]. *)
Inductive json : Type :=
| Jnull
| Jbool (b : bool)
| Jnum (x : number)
| Jstr (s : string)
| Jarr (l : list json)
| Jobj (fs : list (string * json)).

Fixpoint of_json (j : json) : jsval :=
  match j with
  | Jnull => VNull
  | Jbool b => VBool b
  | Jnum x => VNum x
  | Jstr s => VStr s
  | Jarr l => VArr (map of_json l)
  | Jobj fs => VObj (map (fun kv => (fst kv, of_json (snd kv))) fs)
  end.

(** Truthiness ([!x] is its negation). *)
Definition truthy (v : jsval) : bool :=
  match v with
  | VUndefined | VNull => false
  | VBool b => b
  | VNum (Finite n) => negb (n =? 0)
  | VNum (NegZero | NaN) => false
  | VNum (PosInfinity | NegInfinity) => true
  | VStr s => negb (String.eqb s EmptyString)
  | _ => true
  end.

(** Association-list lookup: the own property [k] of an object literal. *)
Fixpoint assoc {A} (k : string) (fs : list (string * A)) : option A :=
  match fs with
  | [] => None
  | (k', v) :: fs' => if String.eqb k k' then Some v else assoc k fs'
  end.

(** The index an array key denotes: [k] is the decimal numeral of some
    [i < n]. *)
Definition array_index (k : string) (n : nat) : option nat :=
  List.find (fun i => String.eqb k (pretty i)) (seq 0 n).

(** The own property [k] of a value, [None] when it has none.  For strings
    only [link] of [String.prototype] is ever asked for by the sources (it is
    a method); the other names they use ([feed], [entry], [title], [author],
    [name], [uri], [published], [updated], [channelId], the [yt:], [at:] and
    [@_] names) are on no prototype. *)
Definition own_property (k : string) (v : jsval) : option jsval :=
  match v with
  | VObj fs => assoc k fs
  | VArr l =>
      if String.eqb k "length" then Some (VNum (Z.of_nat (length l)))
      else match array_index k (length l) with
           | Some i => l !! i
           | None => None
           end
  | VStr s =>
      if String.eqb k "link" then Some VFun
      else if String.eqb k "length" then Some (VNum (Z.of_nat (String.length s)))
      else match array_index k (String.length s) with
           | Some i => option_map (fun c => VStr (String c EmptyString)) (String.get i s)
           | None => None
           end
  | _ => None
  end.

(** What a function throws and a promise rejects with: an [Error] of the
    code, or an error of the language or of the platform. *)
Inductive error : Type :=
| Error (message : string)
| TypeError
| SyntaxError
| PlatformError (name : string).

Inductive Result (A : Type) : Type :=
| Ok (a : A)
| Throw (e : error).
Arguments Ok {A} a.
Arguments Throw {A} e.

(** [v[k]] and [v.k]: reading a property of [undefined] or [null] throws, a
    property the value does not have reads as [undefined]. *)
Definition js_get (k : string) (v : jsval) : Result jsval :=
  match v with
  | VUndefined | VNull => Throw TypeError
  | _ => Ok (default VUndefined (own_property k v))
  end.

(** [String(v)], the conversion string concatenation and template literals
    apply, given how a number prints.  An array prints its elements, joined
    by commas.  An object prints through its [toString]: the one of
    [Object.prototype], unless the object has a property [toString] of its
    own; in a value read from JSON or from XML that property is no function,
    and the conversion throws a [TypeError] ([valueOf], own or inherited,
    gives no primitive either).  Dates and functions print as the platform
    decides; the code never prints one. *)
Section Printing.
Variable number_text : number -> string.

Fixpoint js_String_with (v : jsval) : Result string :=
  match v with
  | VUndefined => Ok "undefined"
  | VNull => Ok "null"
  | VBool true => Ok "true"
  | VBool false => Ok "false"
  | VNum x => Ok (number_text x)
  | VStr s => Ok s
  | VDate _ => Ok "[date]"
  | VFun => Ok "[function]"
  | VArr l =>
      match (fix elements (l : list jsval) : Result (list string) :=
               match l with
               | [] => Ok []
               | x :: l' =>
                   match match x with
                         | VUndefined | VNull => Ok EmptyString
                         | _ => js_String_with x
                         end with
                   | Throw e => Throw e
                   | Ok s =>
                       match elements l' with
                       | Throw e => Throw e
                       | Ok ss => Ok (s :: ss)
                       end
                   end
               end) l with
      | Throw e => Throw e
      | Ok ss => Ok (String.concat "," ss)
      end
  | VObj fs =>
      match assoc "toString" fs with
      | None => Ok "[object Object]"
      | Some _ => Throw TypeError
      end
  end.
End Printing.

(** ** Strings *)

(** Strings are sequences of 8-bit characters; case conversion acts on the
    ASCII letters, which is all a header or a hexadecimal digest holds. *)
Fixpoint string_map (f : ascii -> ascii) (s : string) : string :=
  match s with
  | EmptyString => EmptyString
  | String c s' => String (f c) (string_map f s')
  end.

Definition ascii_lower (c : ascii) : ascii :=
  let n := N_of_ascii c in
  if ((65 <=? n) && (n <=? 90))%N then ascii_of_N (n + 32) else c.

Definition ascii_upper (c : ascii) : ascii :=
  let n := N_of_ascii c in
  if ((97 <=? n) && (n <=? 122))%N then ascii_of_N (n - 32) else c.

Definition toLowerCase : string -> string := string_map ascii_lower.
Definition toUpperCase : string -> string := string_map ascii_upper.

(** [s.split(sep)] for a one-character separator. *)
Fixpoint split (sep : ascii) (s : string) : list string :=
  match s with
  | EmptyString => [EmptyString]
  | String c s' =>
      if Ascii.eqb c sep then EmptyString :: split sep s'
      else match split sep s' with
           | [] => [String c EmptyString]
           | p :: ps => String c p :: ps
           end
  end.

Fixpoint string_drop (n : nat) (s : string) : string :=
  match n, s with
  | O, _ => s
  | S n', String _ s' => string_drop n' s'
  | S _, EmptyString => EmptyString
  end.

(** [s.replace(pat, rep)] with a string pattern: the first occurrence only. *)
Fixpoint replace (pat rep s : string) : string :=
  if String.prefix pat s then rep +:+ string_drop (String.length pat) s
  else match s with
       | EmptyString => EmptyString
       | String c s' => String c (replace pat rep s')
       end.

(** [b.toString(16).padStart(2, "0")] for a byte [b]. *)
Definition hex_digit (n : N) : ascii :=
  match n with
  | 0 => "0" | 1 => "1" | 2 => "2" | 3 => "3" | 4 => "4" | 5 => "5"
  | 6 => "6" | 7 => "7" | 8 => "8" | 9 => "9" | 10 => "a" | 11 => "b"
  | 12 => "c" | 13 => "d" | 14 => "e" | _ => "f"
  end%N%char.

Definition toString16 (n : N) : string :=
  if (n <? 16)%N then String (hex_digit n) EmptyString
  else String (hex_digit (n / 16)) (String (hex_digit (n mod 16)) EmptyString).

Definition padStart2 (pad : ascii) (s : string) : string :=
  match String.length s with
  | O => String pad (String pad s)
  | S O => String pad s
  | _ => s
  end.

Definition hex_of_byte (b : byte) : string :=
  padStart2 "0"%char (toString16 (Byte.to_N b)).

(** [Array.from(bytes).map(hex).join("")] *)
Definition hex_of_bytes (bs : list byte) : string :=
  String.concat EmptyString (map hex_of_byte bs).

(** ** JSON texts *)

(** [JSON.stringify] of an array or object.  Inside an array [undefined] and
    functions become [null]; an object field holding one is left out; a date
    becomes its ISO string ([null] when invalid); a finite number is written
    as it is, [-0] as [0], an infinity and [NaN] as [null]. *)
Section Stringify.
Variable toISOString : Z -> string.

Fixpoint to_json (v : jsval) : json :=
  match v with
  | VUndefined | VNull | VFun => Jnull
  | VBool b => Jbool b
  | VNum (Finite n) => Jnum (Finite n)
  | VNum NegZero => Jnum (Finite 0)
  | VNum (PosInfinity | NegInfinity | NaN) => Jnull
  | VStr s => Jstr s
  | VDate (Some t) => Jstr (toISOString t)
  | VDate None => Jnull
  | VArr l => Jarr (map to_json l)
  | VObj fs =>
      Jobj (omap (fun kv => match snd kv with
                            | VUndefined | VFun => None
                            | _ => Some (fst kv, to_json (snd kv))
                            end) fs)
  end.
End Stringify.

(** A string as the KV store and a request body hold it.  The code looks at
    such a string only through its truthiness and through [JSON.parse], and
    makes one only with [JSON.stringify]; so a string is given by what those
    see: it is the text of a JSON value, or it is no JSON text (and then
    empty or not). *)
Inductive text : Type :=
| NotJson (nonempty : bool)
| Json (j : json).

Definition text_truthy (t : text) : bool :=
  match t with
  | NotJson nonempty => nonempty
  | Json _ => true
  end.

Definition JSON_parse (t : text) : Result jsval :=
  match t with
  | NotJson _ => Throw SyntaxError
  | Json j => Ok (of_json j)
  end.

(** ** valibot *)

(** A schema is its [safeParse]: [None] when the input has issues, the typed
    output otherwise.  An object schema checks the presence and the type of
    every entry, as valibot 1.x does: an entry that is not optional needs its
    key to be in the input, whatever its schema ([unknown] too); keys outside
    the schema are dropped from the output. *)
Definition schema (A : Type) : Type := jsval -> option A.

Definition v_string : schema string :=
  fun input => match input with VStr s => Some s | _ => None end.

(** [v.number()]: any number that is not [NaN]. *)
Definition v_number : schema number :=
  fun input =>
    match input with
    | VNum NaN => None
    | VNum x => Some x
    | _ => None
    end.

(** [v.date()]: a [Date] instance that is not invalid; the output is kept as
    its time value. *)
Definition v_date : schema Z :=
  fun input => match input with VDate (Some t) => Some t | _ => None end.

Definition v_unknown : schema jsval := Some.

Definition v_array {A} (item : schema A) : schema (list A) :=
  fun input => match input with VArr l => mapM item l | _ => None end.

(** [input && typeof input === "object"] *)
Definition is_object (input : jsval) : bool :=
  match input with
  | VObj _ | VArr _ | VDate _ => true
  | _ => false
  end.

Definition v_object {A} (entries : jsval -> option A) : schema A :=
  fun input => if is_object input then entries input else None.

(** A required entry [key: item] of an object schema. *)
Definition v_entry {A} (key : string) (item : schema A) (input : jsval) : option A :=
  match own_property key input with
  | Some value => item value
  | None => None
  end.

(** An entry [key: v.optional(item)]. *)
Definition v_entry_optional {A} (key : string) (item : schema A) (input : jsval)
  : option (option A) :=
  match own_property key input with
  | None | Some VUndefined => Some None
  | Some value => Some <$> item value
  end.

(** [v.union(options)]: the output of the first option without issues. *)
Fixpoint v_union {A} (options : list (schema A)) : schema A :=
  fun input =>
    match options with
    | [] => None
    | option :: rest =>
        match option input with
        | Some output => Some output
        | None => v_union rest input
        end
    end.

(** [v.pipe(s, v.transform(f))] *)
Definition v_pipe_transform {A B} (s : schema A) (f : A -> B) : schema B :=
  fun input => f <$> s input.

(** ** The outside world *)

Inductive body : Type :=
| Form (fields : list (string * string))
| Text (t : text).

Record Request : Type := {
  url : string;
  method : string;
  content_type : string;
  payload : body;
}.

(** What a [fetch] comes to: the promise rejects, or resolves with a
    response of some status. *)
Inductive FetchOutcome : Type :=
| NetworkFailure
| Response (status : Z).

(** [response.ok] *)
Definition response_ok (status : Z) : bool := (200 <=? status) && (status <=? 299).

(** What the code calls and does not define: the XML parser (with or without
    validation of the document), WebCrypto's HMAC, date parsing and printing,
    and what the network answers and the clock shows, both as functions of
    the number of awaited calls made so far; the tag function [dedent] of the
    package of that name, called with the strings of a template and the
    values between them; how the engine prints a number beyond the integers
    a double counts one by one; and the [message] and the [stack] the engine
    gives an error. *)
Class Platform : Type := {
  XMLParser_parse : bool -> string -> Result jsval;
  TextEncoder_encode : string -> list byte;
  CryptoKey : Type;
  crypto_subtle_importKey : string -> list byte -> Result CryptoKey;
  crypto_subtle_sign : CryptoKey -> list byte -> Result (list byte);
  Date_parse : jsval -> option Z;
  Date_toISOString : Z -> string;
  fetch_outcome : nat -> Request -> FetchOutcome;
  clock : nat -> Z;
  dedent : list string -> list jsval -> Result string;
  Number_toString : Z -> string;
  Error_message : error -> string;
  Error_stack : error -> string;
}.

(** The bindings of the worker, the KV namespace apart. *)
Record Env : Type := {
  API_SECRET : string;
  APP_DOMAIN : string;
  DISCORD_WEBHOOK_URL : string;
}.

(** What changes as the code runs: the KV namespace (which answers every
    call), the requests sent so far, and the number of awaited calls to the
    outside made so far. *)
Record World : Type := {
  KV : gmap string text;
  sent : list Request;
  ticks : nat;
}.

(** ** Asynchronous code *)

(** An [async] function: it reads and changes the world and resolves or
    rejects. *)
Definition Async (A : Type) : Type := World -> Result A * World.

Definition ret {A} (a : A) : Async A := fun w => (Ok a, w).
Definition throw {A} (e : error) : Async A := fun w => (Throw e, w).

Definition bind {A B} (m : Async A) (k : A -> Async B) : Async B :=
  fun w =>
    match m w with
    | (Ok a, w') => k a w'
    | (Throw e, w') => (Throw e, w')
    end.

Declare Scope async_scope.
Delimit Scope async_scope with async.
Notation "x <- m ;; k" := (bind m (fun x => k))
  (at level 100, m at next level, right associativity) : async_scope.
Notation "m ;; k" := (bind m (fun _ => k))
  (at level 100, right associativity) : async_scope.
Open Scope async_scope.

Definition lift {A} (r : Result A) : Async A := fun w => (r, w).

Definition tick (w : World) : World :=
  {| KV := KV w; sent := sent w; ticks := S (ticks w) |}.

Definition KV_get (key : string) : Async (option text) :=
  fun w => (Ok (KV w !! key), tick w).

Definition KV_put (key : string) (value : text) : Async unit :=
  fun w => (Ok tt, tick {| KV := <[key := value]> (KV w); sent := sent w; ticks := ticks w |}).

Definition KV_delete (key : string) : Async unit :=
  fun w => (Ok tt, tick {| KV := delete key (KV w); sent := sent w; ticks := ticks w |}).

Section Outside.
Context `{Platform}.

Definition JSON_stringify (v : jsval) : text := Json (to_json Date_toISOString v).

(** [await fetch(...)] *)
Definition fetch (r : Request) : Async Z :=
  fun w =>
    let w' := tick {| KV := KV w; sent := (sent w ++ [r])%list; ticks := ticks w |} in
    match fetch_outcome (ticks w) r with
    | NetworkFailure => (Throw (PlatformError "fetch"), w')
    | Response status => (Ok status, w')
    end.

(** [Date.now()], and the time value of [new Date()]. *)
Definition Date_now : Async Z := fun w => (Ok (clock (ticks w)), w).

(** How a number prints: an integer of at most 2^53 in magnitude by its
    decimal digits, a larger one as the engine rounds and prints it. *)
Definition number_text (x : number) : string :=
  match x with
  | Finite n => if Z.abs n <=? 9007199254740992 then pretty n else Number_toString n
  | NegZero => "0"
  | PosInfinity => "Infinity"
  | NegInfinity => "-Infinity"
  | NaN => "NaN"
  end.

Definition js_String : jsval -> Result string := js_String_with number_text.

(** The time value of [new Date(v)]: the one of [v] when [v] is a date; of
    the string an object or array converts to, when it does; of [v] itself
    otherwise.  [None] is [NaN]. *)
Definition new_Date (v : jsval) : Result (option Z) :=
  match v with
  | VDate t => Ok t
  | VArr _ | VObj _ | VFun =>
      match js_String v with
      | Throw e => Throw e
      | Ok s => Ok (Date_parse (VStr s))
      end
  | _ => Ok (Date_parse v)
  end.

(** [err.message]: the message the code gave an [Error] it made, the
    engine's for the others. *)
Definition error_message (e : error) : string :=
  match e with
  | Error message => message
  | _ => Error_message e
  end.

(** [err.stack] *)
Definition error_stack (e : error) : string := Error_stack e.
End Outside.

(** A call that is not awaited: what it sends is sent, and what it comes to
    is never looked at. *)
Definition detached {A} (m : Async A) : Async unit :=
  fun w => (Ok tt, {| KV := KV (snd (m w)); sent := sent (snd (m w)); ticks := ticks w |}).

(** ** What both implementations share *)

Inductive Mode : Type := subscribe | unsubscribe.

Definition Mode_string (m : Mode) : string :=
  match m with
  | subscribe => "subscribe"
  | unsubscribe => "unsubscribe"
  end.

Definition LF : string := String "010"%char EmptyString.

(** [parts.join(sep)] *)
Definition join (sep : string) (parts : list string) : string := String.concat sep parts.

(** [Math.floor(n / 1000)] of a time value that may be [NaN] ([None]). *)
Definition floor_seconds (n : option Z) : number :=
  match n with
  | Some ms => Finite (ms / 1000)
  | None => NaN
  end.

(** The answer of a route. *)
Inductive HttpResponse : Type :=
| text_response (status : Z) (content : string)
| json_response (status : Z) (message : string).

(** Array methods on a run-time value: only an array has them. *)
Definition as_array (v : jsval) : Result (list jsval) :=
  match v with
  | VArr l => Ok l
  | _ => Throw TypeError
  end.

Fixpoint Array_find (p : jsval -> Result bool) (l : list jsval) : Result jsval :=
  match l with
  | [] => Ok VUndefined
  | x :: l' =>
      match p x with
      | Throw e => Throw e
      | Ok true => Ok x
      | Ok false => Array_find p l'
      end
  end.

Fixpoint Array_filter (p : jsval -> Result bool) (l : list jsval) : Result (list jsval) :=
  match l with
  | [] => Ok []
  | x :: l' =>
      match p x with
      | Throw e => Throw e
      | Ok b =>
          match Array_filter p l' with
          | Throw e => Throw e
          | Ok r => Ok (if b then x :: r else r)
          end
      end
  end.

(** [s.channelId === channelId] *)
Definition channelId_is (channelId : string) (s : jsval) : Result bool :=
  match js_get "channelId" s with
  | Throw e => Throw e
  | Ok (VStr c) => Ok (String.eqb c channelId)
  | Ok _ => Ok false
  end.

(** [s.channelId !== channelId] *)
Definition channelId_is_not (channelId : string) (s : jsval) : Result bool :=
  match channelId_is channelId s with
  | Throw e => Throw e
  | Ok b => Ok (negb b)
  end.

(** What [for (const x of v)] goes through: the elements of an array, the
    characters of a string; nothing else the code can hold is iterable. *)
Definition iterate (v : jsval) : Result (list jsval) :=
  match v with
  | VArr l => Ok l
  | VStr s => Ok (map (fun c => VStr (String c EmptyString)) (list_ascii_of_string s))
  | _ => Throw TypeError
  end.

(** [!p] for a promise [p] that is not awaited: a promise is an object, and
    an object is truthy, whatever the promise comes to. *)
Definition promise_truthy {A} (p : Async A) : bool := true.

(** ** [src/lib.ts] and its router *)

Module Lib.
Section WithPlatform.
Context `{Platform}.

Definition BASE_TOPIC_URL : string :=
  "https://www.youtube.com/xml/feeds/videos.xml?channel_id=".
Definition HUB_URL : string := "https://pubsubhubbub.appspot.com/subscribe".

Definition requestSubscription (mode : Mode) (channelId secret callbackUrl : string)
  : Async bool :=
  let topic := BASE_TOPIC_URL +:+ channelId in
  let body :=
    Form [("hub.callback", callbackUrl);
          ("hub.mode", Mode_string mode);
          ("hub.topic", topic);
          ("hub.secret", secret);
          ("hub.verify", "sync")] in
  response <- fetch {| url := HUB_URL; method := "POST";
                       content_type := "application/x-www-form-urlencoded";
                       payload := body |} ;;
  if negb (response_ok response) then ret false else ret true.

(** [discordLog] returns the promise of its [fetch]. *)
Definition discordLog (webhookUrl message : string) : Async Z :=
  fetch {| url := webhookUrl; method := "POST";
           content_type := "application/json";
           payload := Text (JSON_stringify (VObj [("content", VStr message)])) |}.

(** The list is whatever the stored text parses to: the [as Subscription[]]
    of the source checks nothing. *)
Definition getAllSubscriptions : Async jsval :=
  stored <- KV_get "subscriptions" ;;
  let t := match stored with
           | Some t => if text_truthy t then t else Json (Jarr [])
           | None => Json (Jarr [])
           end in
  lift (JSON_parse t).

Definition callbackUrl (env : Env) : string :=
  "https://" +:+ APP_DOMAIN env +:+ "/callback".

Definition addSubscription (env : Env) (channelId : string) : Async unit :=
  subscriptions <- getAllSubscriptions ;;
  l <- lift (as_array subscriptions) ;;
  found <- lift (Array_find (channelId_is channelId) l) ;;
  if truthy found then ret tt else
  subscribed <- requestSubscription subscribe channelId (API_SECRET env) (callbackUrl env) ;;
  if negb subscribed then throw (Error "Failed to subscribe") else
  now <- Date_now ;;
  let subscriptions' :=
    (l ++ [VObj [("channelId", VStr channelId); ("lastSubscribed", VDate (Some now))]])%list in
  KV_put "subscriptions" (JSON_stringify (VArr subscriptions')).

Definition removeSubscription (env : Env) (channelId : string) : Async unit :=
  subscriptions <- getAllSubscriptions ;;
  l <- lift (as_array subscriptions) ;;
  found <- lift (Array_find (channelId_is channelId) l) ;;
  if negb (truthy found) then ret tt else
  unsubscribed <- requestSubscription unsubscribe channelId (API_SECRET env) (callbackUrl env) ;;
  if negb unsubscribed then throw (Error "Failed to unsubscribe") else
  updatedSubscriptions <- lift (Array_filter (channelId_is_not channelId) l) ;;
  KV_put "subscriptions" (JSON_stringify (VArr updatedSubscriptions)).

(** The body of the loop of [renewAll], over the subscriptions left to
    renew; [updatedSubscriptions] is the array it pushes to.  The channel
    id is whatever the element holds, and is made a string where the topic
    is built ([BASE_TOPIC_URL + channelId]) and where the message is; the
    conversion throws for some objects, and then no request is made. *)
Fixpoint renew_loop (env : Env) (todo updatedSubscriptions : list jsval)
  : Async (list jsval) :=
  match todo with
  | [] => ret updatedSubscriptions
  | subscription :: rest =>
      channelId <- lift (js_get "channelId" subscription) ;;
      topic <- lift (js_String channelId) ;;
      subscribed <- requestSubscription subscribe topic (API_SECRET env) (callbackUrl env) ;;
      (if negb subscribed
       then name <- lift (js_String channelId) ;;
            detached (discordLog (DISCORD_WEBHOOK_URL env)
                        ("Failed to renew subscription for " +:+ name))
       else ret tt) ;;
      now <- Date_now ;;
      renew_loop env rest
        (updatedSubscriptions ++
           [VObj [("channelId", channelId); ("lastSubscribed", VDate (Some now))]])%list
  end.

Definition renewAll (env : Env) : Async unit :=
  subscriptions <- getAllSubscriptions ;;
  todo <- lift (iterate subscriptions) ;;
  updatedSubscriptions <- renew_loop env todo [] ;;
  KV_put "subscriptions" (JSON_stringify (VArr updatedSubscriptions)).

Definition verifyNotificationSignature (secret signature xml : string) : Async bool :=
  let parts := split "="%char signature in
  let algo := default EmptyString (parts !! 0%nat) in
  let matchingParts := parts !! 1%nat in
  let hash_name := replace "SHA" "SHA-" (toUpperCase algo) in
  key <- lift (crypto_subtle_importKey hash_name (TextEncoder_encode secret)) ;;
  signatureArrayBuffer <- lift (crypto_subtle_sign key (TextEncoder_encode xml)) ;;
  let signatureHex := hex_of_bytes signatureArrayBuffer in
  match matchingParts with
  | None => throw TypeError
  | Some m => ret (String.eqb (toLowerCase signatureHex) (toLowerCase m))
  end.

(** *** The feed schema *)

Record Entry : Type := {
  entry_videoId : string;
  entry_title : string;
  entry_channelId : string;
  entry_author_name : string;
  entry_author_uri : string;
  entry_published : Z;
  entry_updated : Z;
}.

(** The two shapes of [feed] the union tells apart. *)
Inductive Feed : Type :=
| deleted_entry (marker : jsval)
| with_entry (entry : option Entry).

Record VideoData : Type := {
  video_id : string;
  video_title : string;
  video_link : string;
  channel_id : string;
  channel_name : string;
  channel_link : string;
  published : Z;
  updated : Z;
}.

Definition authorSchema : schema (string * string) :=
  v_object (fun input =>
    name ← v_entry "name" v_string input;
    uri ← v_entry "uri" v_string input;
    Some (name, uri)).

Definition entrySchema : schema Entry :=
  v_object (fun input =>
    videoId ← v_entry "yt:videoId" v_string input;
    title ← v_entry "title" v_string input;
    channelId ← v_entry "yt:channelId" v_string input;
    author ← v_entry "author" authorSchema input;
    published ← v_entry "published" v_date input;
    updated ← v_entry "updated" v_date input;
    Some {| entry_videoId := videoId; entry_title := title;
            entry_channelId := channelId;
            entry_author_name := fst author; entry_author_uri := snd author;
            entry_published := published; entry_updated := updated |}).

Definition feedSchema : schema Feed :=
  v_union
    [v_object (fun input => deleted_entry <$> v_entry "at:deleted-entry" v_unknown input);
     v_object (fun input => with_entry <$> v_entry_optional "entry" entrySchema input)].

(** The output is [null] ([None]) or the record of the video. *)
Definition callbackSchema : schema (option VideoData) :=
  v_pipe_transform
    (v_object (fun input => v_entry "feed" feedSchema input))
    (fun feed =>
       match feed with
       | deleted_entry _ => None
       | with_entry None => None
       | with_entry (Some video) =>
           Some {| video_id := entry_videoId video;
                   video_title := entry_title video;
                   video_link := "https://www.youtube.com/watch?v=" +:+ entry_videoId video;
                   channel_id := entry_channelId video;
                   channel_name := entry_author_name video;
                   channel_link := entry_author_uri video;
                   published := entry_published video;
                   updated := entry_updated video |}
       end).

Definition sendDiscordNotification (webhookUrl : string) (video : VideoData) : Async Z :=
  discordLog webhookUrl
    (join LF
       ["New video from [" +:+ channel_name video +:+ "](" +:+ channel_link video +:+ ")";
        "**" +:+ video_title video +:+ "**";
        " " +:+ video_link video;
        EmptyString;
        "Published at <t:" +:+ number_text (floor_seconds (Some (published video))) +:+ ":f>";
        "Updated at <t:" +:+ number_text (floor_seconds (Some (updated video))) +:+ ":f>"]).

(** [signature] is [None] when the request has no such header. *)
Definition callback (env : Env) (xml : string) (signature : option string) : Async unit :=
  verified <- match signature with
              | None => ret false
              | Some s =>
                  if String.eqb s EmptyString then ret false
                  else verifyNotificationSignature (API_SECRET env) s xml
              end ;;
  if negb verified then throw (Error "Invalid signature") else
  data <- lift (XMLParser_parse false xml) ;;
  match callbackSchema data with
  | None => ret tt
  | Some None => ret tt
  | Some (Some output) =>
      sendDiscordNotification (DISCORD_WEBHOOK_URL env) output ;; ret tt
  end.

(** The route [POST /callback] of the router. *)
Definition post_callback (env : Env) (xml : string) (signature : option string)
  : Async HttpResponse :=
  fun w =>
    match callback env xml signature w with
    | (Ok _, w') => (Ok (text_response 200 "OK"), w')
    | (Throw err, w') => (Ok (text_response 500 ("Error: " +:+ error_message err)), w')
    end.
End WithPlatform.
End Lib.

(** ** [src/utils.ts] and its router *)

Module Utils.
Section WithPlatform.
Context `{Platform}.

Definition BASE_TOPIC_URL : string :=
  "https://www.youtube.com/xml/feeds/videos.xml?channel_id=".
Definition HUB_URL : string := "https://pubsubhubbub.appspot.com/subscribe".
Definition SUBSCRIPTION_KV_KEY : string := "auto-yt-notify-subscriptions".

Definition requestSubscription (mode : Mode) (channelId secret callbackUrl : string)
  : Async bool :=
  let topic := BASE_TOPIC_URL +:+ channelId in
  let body :=
    Form [("hub.callback", callbackUrl);
          ("hub.mode", Mode_string mode);
          ("hub.topic", topic);
          ("hub.secret", secret);
          ("hub.verify", "sync")] in
  response <- fetch {| url := HUB_URL; method := "POST";
                       content_type := "application/x-www-form-urlencoded";
                       payload := body |} ;;
  if negb (response_ok response) then ret false else ret true.

Record Subscription : Type := {
  channelId : string;
  lastSubscribedAt : number;
}.

(** The schema [subscription] *)
Definition subscription : schema Subscription :=
  v_object (fun input =>
    c ← v_entry "channelId" v_string input;
    t ← v_entry "lastSubscribedAt" v_number input;
    Some {| channelId := c; lastSubscribedAt := t |}).

(** A validated subscription as the run-time object it is. *)
Definition Subscription_value (s : Subscription) : jsval :=
  VObj [("channelId", VStr (channelId s)); ("lastSubscribedAt", VNum (lastSubscribedAt s))].

Definition getAllSubscriptions : Async (list Subscription) :=
  subscriptions <- KV_get SUBSCRIPTION_KV_KEY ;;
  match subscriptions with
  | None => ret []
  | Some t =>
      if negb (text_truthy t) then ret [] else
      parsed <- lift (JSON_parse t) ;;
      match v_array subscription parsed with
      | None => KV_delete SUBSCRIPTION_KV_KEY ;; ret []
      | Some output => ret output
      end
  end.

(** [allSubscriptions.find((s) => s.channelId === channelId)] *)
Definition find_channel (c : string) (l : list Subscription) : option Subscription :=
  List.find (fun s => String.eqb (channelId s) c) l.

Definition addSubscription (env : Env) (c : string) : Async unit :=
  allSubscriptions <- getAllSubscriptions ;;
  match find_channel c allSubscriptions with
  | Some _ => ret tt
  | None =>
      subscribed <- requestSubscription subscribe c (API_SECRET env)
                      ("https://" +:+ APP_DOMAIN env +:+ "/callback") ;;
      if negb subscribed then throw (Error "Failed to subscribe!") else
      now <- Date_now ;;
      let allSubscriptions' :=
        (allSubscriptions ++ [{| channelId := c; lastSubscribedAt := Finite now |}])%list in
      KV_put SUBSCRIPTION_KV_KEY
        (JSON_stringify (VArr (map Subscription_value allSubscriptions')))
  end.

Definition removeSubscription (env : Env) (c : string) : Async unit :=
  allSubscriptions <- getAllSubscriptions ;;
  match find_channel c allSubscriptions with
  | None => ret tt
  | Some _ =>
      unsubscribed <- requestSubscription unsubscribe c (API_SECRET env)
                        (APP_DOMAIN env +:+ "/callback") ;;
      if negb unsubscribed then throw (Error "Failed to unsubscribe!") else
      let subscriptions :=
        List.filter (fun s => negb (String.eqb (channelId s) c)) allSubscriptions in
      KV_put SUBSCRIPTION_KV_KEY
        (JSON_stringify (VArr (map Subscription_value subscriptions)))
  end.

Definition verifyNotificationSignature (env : Env) (signature xml : string) : Async bool :=
  let parts := map toLowerCase (split "="%char signature) in
  let algo := default EmptyString (parts !! 0%nat) in
  let matchingParts := parts !! 1%nat in
  let hash_name := toUpperCase algo in
  key <- lift (crypto_subtle_importKey hash_name (TextEncoder_encode (API_SECRET env))) ;;
  signatureArrayBuffer <- lift (crypto_subtle_sign key (TextEncoder_encode xml)) ;;
  let signatureHex := hex_of_bytes signatureArrayBuffer in
  match matchingParts with
  | None => ret false
  | Some m => ret (String.eqb (toLowerCase signatureHex) m)
  end.

Definition discordLog (env : Env) (message : string) : Async unit :=
  fetch {| url := DISCORD_WEBHOOK_URL env; method := "POST";
           content_type := "application/json";
           payload := Text (JSON_stringify (VObj [("content", VStr message)])) |} ;;
  ret tt.

(** The record the route builds: its fields are whatever the parsed feed
    holds, the times are [NaN] ([None]) when the date does not parse. *)
Record VideoData : Type := {
  video_id : jsval;
  video_title : jsval;
  video_link : jsval;
  channel_id : jsval;
  channel_name : jsval;
  channel_link : jsval;
  published : option Z;
  updated : option Z;
}.

(** [x ?? y] *)
Definition nullish_or (x : jsval) (y : string) : jsval :=
  match x with
  | VUndefined | VNull => VStr y
  | _ => x
  end.

(** The strings of the template of the message, as the source has them: a
    line break and four spaces between the lines. *)
Definition message_template : list string :=
  ["New video from [";
   "](";
   ")" +:+ LF +:+ "    **";
   "**" +:+ LF +:+ "    ";
   LF +:+ "    " +:+ LF +:+ "    Published at <t:";
   ":f>" +:+ LF +:+ "    Updated at <t:";
   ":f>"].

(** The values between them. *)
Definition message_values (video : VideoData) : list jsval :=
  [channel_name video;
   channel_link video;
   video_title video;
   nullish_or (video_link video) "*Link unavailable*";
   VNum (floor_seconds (published video));
   VNum (floor_seconds (updated video))].

(** The message is what [dedent] makes of the template and the values; what
    [dedent] throws, the function throws before it sends anything. *)
Definition sendDiscordNotification (env : Env) (video : VideoData) : Async unit :=
  message <- lift (dedent message_template (message_values video)) ;;
  discordLog env message.

Fixpoint renew_loop (env : Env) (todo renewedSubscriptions : list Subscription)
  : Async (list Subscription) :=
  match todo with
  | [] => ret renewedSubscriptions
  | subscription :: rest =>
      subscribed <- requestSubscription subscribe (channelId subscription)
                      (API_SECRET env) ("https://" +:+ APP_DOMAIN env +:+ "/callback") ;;
      (if negb subscribed
       then detached (discordLog env
                        ("Failed to renew subscription for " +:+ channelId subscription))
       else ret tt) ;;
      renew_loop env rest (renewedSubscriptions ++ [subscription])%list
  end.

Definition renewSubscriptionCronWorker (env : Env) : Async unit :=
  allSubscriptions <- getAllSubscriptions ;;
  renewedSubscriptions <- renew_loop env allSubscriptions [] ;;
  KV_put SUBSCRIPTION_KV_KEY (JSON_stringify (VArr (map Subscription_value renewedSubscriptions))).

(** What the route does with the parsed document. *)
Definition notify (env : Env) (data : jsval) : Async HttpResponse :=
  feed <- lift (js_get "feed" data) ;;
  deleted <- lift (js_get "at:deleted-entry" feed) ;;
  if truthy deleted then ret (text_response 200 "OK") else
  video <- lift (js_get "entry" feed) ;;
  if negb (truthy video) then ret (text_response 200 "OK") else
  videoId <- lift (js_get "yt:videoId" video) ;;
  published_node <- lift (js_get "published" video) ;;
  publishTime <- lift (new_Date published_node) ;;
  updated_node <- lift (js_get "updated" video) ;;
  updateTime <- lift (new_Date updated_node) ;;
  title <- lift (js_get "title" video) ;;
  link_node <- lift (js_get "link" video) ;;
  link <- lift (js_get "@_href" link_node) ;;
  channel <- lift (js_get "yt:channelId" video) ;;
  author <- lift (js_get "author" video) ;;
  name <- lift (js_get "name" author) ;;
  uri <- lift (js_get "uri" author) ;;
  sendDiscordNotification env
    {| video_id := videoId; video_title := title; video_link := link;
       channel_id := channel; channel_name := name; channel_link := uri;
       published := publishTime; updated := updateTime |} ;;
  ret (text_response 200 "OK").

(** The route [POST /callback].  [verifyNotificationSignature] is called
    and not awaited: the condition sees the promise. *)
Definition post_callback (env : Env) (xml : string) (signature : option string)
  : Async HttpResponse :=
  let rejected :=
    match signature with
    | None => true
    | Some s =>
        String.eqb s EmptyString
        || negb (promise_truthy (verifyNotificationSignature env s xml))
    end in
  if rejected then ret (json_response 200 "Invalid Signature") else
  data <- lift (XMLParser_parse true xml) ;;
  notify env data.

(** The router around the route: [onError] takes what the route throws.
    The route is the only handler of its path, and [onError] runs once. *)
Definition app_post_callback (env : Env) (xml : string) (signature : option string)
  : Async HttpResponse :=
  fun w =>
    match post_callback env xml signature w with
    | (Ok response, w') => (Ok response, w')
    | (Throw err, w') =>
        (discordLog env ("Encountered an Error" +:+ LF +:+ error_stack err) ;;
         ret (json_response 200 "Something went wrong")) w'
    end.
End WithPlatform.
End Utils.

(** ** A platform to run the code on *)

(** How the platform of the examples prints a number, and what it names an
    error. *)
Definition toy_number_text (x : number) : string :=
  match x with
  | Finite n => pretty n
  | NegZero => "0"
  | PosInfinity => "Infinity"
  | NegInfinity => "-Infinity"
  | NaN => "NaN"
  end.

Definition toy_error_name (e : error) : string :=
  match e with
  | Error message => message
  | TypeError => "TypeError"
  | SyntaxError => "SyntaxError"
  | PlatformError name => name
  end.

(** Its [dedent]: the values are printed between the strings, the lines
    lose the indentation they share, and the text its white space at both
    ends. *)
Fixpoint print_all (values : list jsval) : Result (list string) :=
  match values with
  | [] => Ok []
  | v :: rest =>
      match js_String_with toy_number_text v with
      | Throw e => Throw e
      | Ok s =>
          match print_all rest with
          | Throw e => Throw e
          | Ok ss => Ok (s :: ss)
          end
      end
  end.

Fixpoint interleave (strings values : list string) : string :=
  match strings with
  | [] => EmptyString
  | s :: strings' =>
      s +:+ match values with
            | [] => String.concat EmptyString strings'
            | v :: values' => v +:+ interleave strings' values'
            end
  end.

Fixpoint leading_spaces (s : string) : nat :=
  match s with
  | String " " s' => S (leading_spaces s')
  | _ => O
  end.

(** The indentation of a line that has one, and something after it. *)
Definition indentation (line : string) : option nat :=
  match leading_spaces line, string_drop (leading_spaces line) line with
  | S n, String _ _ => Some (S n)
  | _, _ => None
  end.

Definition shared_indentation (lines : list string) : option nat :=
  fold_right (fun line least =>
                match indentation line, least with
                | Some n, Some m => Some (Nat.min n m)
                | Some n, None => Some n
                | None, _ => least
                end) None lines.

Definition outdent (m : nat) (line : string) : string :=
  match line with
  | String " " _ => string_drop m line
  | _ => line
  end.

Definition is_space (c : ascii) : bool := Ascii.eqb c " " || Ascii.eqb c "010".

Fixpoint trim_start (s : string) : string :=
  match s with
  | String c s' => if is_space c then trim_start s' else s
  | EmptyString => EmptyString
  end.

Definition trim (s : string) : string :=
  string_of_list_ascii
    (rev (list_ascii_of_string
            (trim_start (string_of_list_ascii (rev (list_ascii_of_string (trim_start s))))))).

Definition toy_dedent (strings : list string) (values : list jsval) : Result string :=
  match print_all values with
  | Throw e => Throw e
  | Ok printed =>
      let lines := split "010" (interleave strings printed) in
      Ok (trim (String.concat (String "010" EmptyString)
                  (match shared_indentation lines with
                   | Some m => map (outdent m) lines
                   | None => lines
                   end)))
  end.

(** For the examples: the parser returns [doc] whatever the text, the network
    answers the [n]-th awaited call with [answer n], the clock shows
    [1000 * n].  Its HMAC stands in for the real one (the digest is the key
    followed by the message) and knows the hash names of WebCrypto; its
    [Date] parses numbers and the two dates the examples use, and prints a
    date as its time value; it prints every integer by its digits; the
    message and the stack of an error are its name. *)
Definition toy_platform (doc : jsval) (answer : nat -> FetchOutcome) : Platform := {|
  XMLParser_parse := fun _ _ => Ok doc;
  TextEncoder_encode := list_byte_of_string;
  CryptoKey := list byte;
  crypto_subtle_importKey := fun name raw =>
    if String.eqb name "SHA-1" || String.eqb name "SHA-256"
       || String.eqb name "SHA-384" || String.eqb name "SHA-512"
    then Ok raw else Throw (PlatformError "NotSupportedError");
  crypto_subtle_sign := fun key data => Ok (key ++ data)%list;
  Date_parse := fun v =>
    match v with
    | VNum (Finite n) => Some n
    | VDate t => t
    | VStr s =>
        if String.eqb s "2024-01-01T00:00:00Z" then Some 1704067200000
        else if String.eqb s "2024-01-02T00:00:00Z" then Some 1704153600000
        else None
    | _ => None
    end;
  Date_toISOString := pretty;
  fetch_outcome := fun n _ => answer n;
  clock := fun n => 1000 * Z.of_nat n;
  dedent := toy_dedent;
  Number_toString := pretty;
  Error_message := toy_error_name;
  Error_stack := toy_error_name;
|}.

Definition toy_env : Env :=
  {| API_SECRET := "s3cret"; APP_DOMAIN := "example.org";
     DISCORD_WEBHOOK_URL := "https://discord.example/hook" |}.

Definition empty_world : World := {| KV := ∅; sent := []; ticks := 0 |}.

(** The [hub.callback] field of a request to the hub. *)
Definition hub_callback (r : Request) : option string :=
  match payload r with
  | Form fields => assoc "hub.callback" fields
  | Text _ => None
  end.

(** The request [requestSubscription] sends (the same in both files). *)
Definition hub_request (mode : Mode) (channelId secret callbackUrl : string) : Request :=
  {| url := "https://pubsubhubbub.appspot.com/subscribe"; method := "POST";
     content_type := "application/x-www-form-urlencoded";
     payload := Form [("hub.callback", callbackUrl);
                      ("hub.mode", Mode_string mode);
                      ("hub.topic", "https://www.youtube.com/xml/feeds/videos.xml?channel_id=" +:+ channelId);
                      ("hub.secret", secret);
                      ("hub.verify", "sync")] |}.

(** The world once [r] has been sent and awaited. *)
Definition after_fetch (r : Request) (w : World) : World :=
  {| KV := KV w; sent := (sent w ++ [r])%list; ticks := S (ticks w) |}.

(** [s] with its [i]-th character changed to [c]. *)
Fixpoint set_char (i : nat) (c : ascii) (s : string) {struct s} : string :=
  match s, i with
  | EmptyString, _ => EmptyString
  | String _ s', O => String c s'
  | String a s', S i' => String a (set_char i' c s')
  end.

Fixpoint has_char (c : ascii) (s : string) : bool :=
  match s with
  | EmptyString => false
  | String a s' => Ascii.eqb a c || has_char c s'
  end.

(** The hash names the two files hand to [importKey] for a header. *)
Definition lib_hash_name (signature : string) : string :=
  replace "SHA" "SHA-" (toUpperCase (default EmptyString (split "="%char signature !! 0%nat))).

Definition utils_hash_name (signature : string) : string :=
  toUpperCase (default EmptyString (map toLowerCase (split "="%char signature) !! 0%nat)).

(** The digest the toy platform computes for the body [body] under the
    secret of [toy_env], in upper-case hexadecimal. *)
Definition toy_digest : list byte :=
  (list_byte_of_string "s3cret" ++ list_byte_of_string "body")%list.
Definition toy_D : string := Eval vm_compute in toUpperCase (hex_of_bytes toy_digest).

(** The [content] of a message posted to the webhook. *)
Definition request_content (r : Request) : option string :=
  match payload r with
  | Text (Json (Jobj fields)) =>
      match assoc "content" fields with
      | Some (Jstr message) => Some message
      | _ => None
      end
  | _ => None
  end.

(** The entry of the example of the specification as an XML parser gives
    it, with a [link] node [link]: the dates are strings. *)
Definition parsed_entry (link : jsval) : jsval :=
  VObj [("yt:videoId", VStr "v123"); ("title", VStr "T"); ("yt:channelId", VStr "c1");
        ("link", link);
        ("author", VObj [("name", VStr "A"); ("uri", VStr "http://a")]);
        ("published", VStr "2024-01-01T00:00:00Z");
        ("updated", VStr "2024-01-02T00:00:00Z")].

(** The same without its title. *)
Definition untitled_entry (link : jsval) : jsval :=
  VObj [("yt:videoId", VStr "v123"); ("yt:channelId", VStr "c1");
        ("link", link);
        ("author", VObj [("name", VStr "A"); ("uri", VStr "http://a")]);
        ("published", VStr "2024-01-01T00:00:00Z");
        ("updated", VStr "2024-01-02T00:00:00Z")].

Definition document (entry : jsval) : jsval :=
  VObj [("feed", VObj [("entry", entry)])].

(** The same without its author. *)
Definition authorless_entry (link : jsval) : jsval :=
  VObj [("yt:videoId", VStr "v123"); ("title", VStr "T"); ("yt:channelId", VStr "c1");
        ("link", link);
        ("published", VStr "2024-01-01T00:00:00Z");
        ("updated", VStr "2024-01-02T00:00:00Z")].

(** The [link] node of a feed entry, an element with attributes and no
    content: the empty string when the parser leaves attributes out, as
    [new XMLParser()] does; an object when it keeps them. *)
Definition link_node : jsval := VStr EmptyString.
Definition link_node_with_attributes : jsval :=
  VObj [("@_href", VStr "https://example.org/elsewhere")].

(** The body of a push. *)
Definition example_xml : string :=
  "<feed><entry><yt:videoId>v123</yt:videoId><yt:channelId>c1</yt:channelId>"
  +:+ "<title>T</title><link rel='alternate' href='https://www.youtube.com/watch?v=v123'/>"
  +:+ "<author><name>A</name><uri>http://a</uri></author>"
  +:+ "<published>2024-01-01T00:00:00Z</published><updated>2024-01-02T00:00:00Z</updated>"
  +:+ "</entry></feed>".

(** The world once the list [l] has been written by [utils.ts]. *)
Definition utils_written `{Platform} (l : list Utils.Subscription) (w : World) : World :=
  {| KV := <[Utils.SUBSCRIPTION_KV_KEY :=
               JSON_stringify (VArr (map Utils.Subscription_value l))]> (KV w);
     sent := sent w; ticks := S (ticks w) |}.

(** How many subscriptions of [l] are for the channel [c]. *)
Definition utils_count (c : string) (l : list Utils.Subscription) : nat :=
  length (List.filter (fun s => String.eqb (Utils.channelId s) c) l).

(** The world once the array [v] has been written by [lib.ts]. *)
Definition lib_written `{Platform} (v : jsval) (w : World) : World :=
  {| KV := <["subscriptions" := JSON_stringify v]> (KV w);
     sent := sent w; ticks := S (ticks w) |}.

(** The entry [lib.ts] pushes for a channel at a time, and what it is once
    written and read again. *)
Definition lib_entry (channelId : jsval) (now : Z) : jsval :=
  VObj [("channelId", channelId); ("lastSubscribed", VDate (Some now))].


(** Worlds for the examples: a store holding one text under the key of
    [utils.ts], or of [lib.ts]. *)
Definition utils_world (t : text) : World :=
  {| KV := {[ Utils.SUBSCRIPTION_KV_KEY := t ]}; sent := []; ticks := 0 |}.

Definition lib_world (t : text) : World :=
  {| KV := {[ "subscriptions" := t ]}; sent := []; ticks := 0 |}.

(** The text of a registry with the channels [c1], [c2] and [c3], as each
    file writes it. *)
Definition utils_three : text :=
  Json (Jarr [Jobj [("channelId", Jstr "c1"); ("lastSubscribedAt", Jnum 100)];
              Jobj [("channelId", Jstr "c2"); ("lastSubscribedAt", Jnum 200)];
              Jobj [("channelId", Jstr "c3"); ("lastSubscribedAt", Jnum 300)]]).

Definition lib_three : text :=
  Json (Jarr [Jobj [("channelId", Jstr "c1"); ("lastSubscribed", Jstr "100")];
              Jobj [("channelId", Jstr "c2"); ("lastSubscribed", Jstr "200")];
              Jobj [("channelId", Jstr "c3"); ("lastSubscribed", Jstr "300")]]).

(** A hub that fails the call made at tick [n] and serves the others. *)
Definition fails_at (n : nat) : nat -> FetchOutcome :=
  fun i => if Nat.eqb i n then Response 500 else Response 204.

(** The request [discordLog] sends. *)
Definition discord_request `{Platform} (webhookUrl message : string) : Request :=
  {| url := webhookUrl; method := "POST"; content_type := "application/json";
     payload := Text (JSON_stringify (VObj [("content", VStr message)])) |}.

(** What a pass of [utils.ts] over [todo] sends when its first hub call is
    made at tick [n]: for every item the request to the hub, followed by
    one report when the hub answered with a status that is no success. *)
Fixpoint utils_renew_trace `{Platform} (env : Env) (n : nat) (todo : list Utils.Subscription)
  : list Request :=
  match todo with
  | [] => []
  | s :: rest =>
      let r := hub_request subscribe (Utils.channelId s) (API_SECRET env)
                 ("https://" +:+ APP_DOMAIN env +:+ "/callback") in
      r :: match fetch_outcome n r with
           | Response status =>
               if response_ok status then []
               else [discord_request (DISCORD_WEBHOOK_URL env)
                       ("Failed to renew subscription for " +:+ Utils.channelId s)]
           | NetworkFailure => []
           end ++ utils_renew_trace env (S n) rest
  end.

(** The channel id of an element of the array of [lib.ts]. *)
Definition lib_channelId (subscription : jsval) : jsval :=
  default VUndefined (own_property "channelId" subscription).

(** The string the channel id of an element converts to (the empty string
    stands for a conversion that throws, after which nothing is sent). *)
Definition lib_topic `{Platform} (subscription : jsval) : string :=
  match js_String (lib_channelId subscription) with
  | Ok topic => topic
  | Throw _ => EmptyString
  end.

(** The same for a pass of [lib.ts], and the entries it pushes: one per
    item, with the time the clock shows once the hub call of the item has
    come back, whatever the hub answered. *)
Fixpoint lib_renew_trace `{Platform} (env : Env) (n : nat) (todo : list jsval)
  : list Request :=
  match todo with
  | [] => []
  | s :: rest =>
      let r := hub_request subscribe (lib_topic s) (API_SECRET env) (Lib.callbackUrl env) in
      r :: match fetch_outcome n r with
           | Response status =>
               if response_ok status then []
               else [discord_request (DISCORD_WEBHOOK_URL env)
                       ("Failed to renew subscription for " +:+ lib_topic s)]
           | NetworkFailure => []
           end ++ lib_renew_trace env (S n) rest
  end.

Fixpoint lib_renewed `{Platform} (n : nat) (todo : list jsval) : list jsval :=
  match todo with
  | [] => []
  | s :: rest => lib_entry (lib_channelId s) (clock (S n)) :: lib_renewed (S n) rest
  end.

(** ** The routers *)

(** The answer of a route of the management surface: [c.json(value, status)]
    or [c.text(content)]. *)
Inductive Answer : Type :=
| json_answer (status : Z) (body : json)
| text_answer (status : Z) (content : string).

(** [{ message }] *)
Definition message_body (message : string) : json := Jobj [("message", Jstr message)].

(** [c.json({ error: "Unauthorized" }, 401)] *)
Definition unauthorized : Answer := json_answer 401 (Jobj [("error", Jstr "Unauthorized")]).

(** [c.req.header("Authorization") === `Bearer ${c.env.API_SECRET}`];
    [authorization] is [None] when the request has no such header. *)
Definition authorized (env : Env) (authorization : option string) : bool :=
  match authorization with
  | Some value => String.eqb value ("Bearer " +:+ API_SECRET env)
  | None => false
  end.

(** The middleware on [/api/*], the same in both routers: it answers by
    itself or goes on to the route. *)
Definition api (env : Env) (authorization : option string) (next : Async Answer)
  : Async Answer :=
  if authorized env authorization then next else ret unauthorized.

(** What [JSON.stringify] sees of a promise: an object without enumerable
    properties of its own. *)
Definition promise_object : jsval := VObj [].

(** How Hono answers a request whose handler throws.  The handlers that
    match a request (the middleware in front of the route, and the route)
    run one inside the other, each under the same rule: what a handler
    throws is handed to [onError], and the answer of [onError] is the answer
    of the request.  When the call inside [onError] rejects too, the rejection
    goes out through the handler around, which is under that rule as well,
    and at last through the router itself: [onError] runs again, with the
    error of the run before, once per layer, until a run answers or the
    layers are used up.  [layers] is the number of runs left after the
    first: one per handler in front of the one that threw, and one for the
    router; a route that is the only handler of its path has none. *)
Fixpoint handle_error (onError : error -> Async Answer) (layers : nat) (err : error)
  : Async Answer :=
  fun w =>
    match onError err w with
    | (Ok answer, w') => (Ok answer, w')
    | (Throw err', w') =>
        match layers with
        | O => (Throw err', w')
        | S layers' => handle_error onError layers' err' w'
        end
    end.

Definition routed (onError : error -> Async Answer) (layers : nat) (route : Async Answer)
  : Async Answer :=
  fun w =>
    match route w with
    | (Ok answer, w') => (Ok answer, w')
    | (Throw err, w') => handle_error onError layers err w'
    end.

(** The router of [lib.ts] ([src/unnamed/part_000]).  A route takes what the
    validator in front of it hands on (the [channelId] of the body, the
    [hub.challenge] of the query); the answers of the validator itself are
    not part of the model.  Every request goes through the middleware on
    [*] first. *)
Module LibRouter.
Section WithPlatform.
Context `{Platform}.

(** [app.onError]: the error is posted to the webhook, and the answer is a
    message with the status 200. *)
Definition onError (env : Env) (err : error) : Async Answer :=
  Lib.discordLog (DISCORD_WEBHOOK_URL env)
    ("Encountered an Error" +:+ LF +:+ error_stack err) ;;
  ret (json_answer 200 (message_body "Something went wrong")).

Definition get_root (env : Env) : Async Answer :=
  routed (onError env) 2
    (ret (json_answer 200 (message_body "Youtube Notifier is running!"))).

(** [c.json(c.var.yt.getAllSubscriptions())]: the call is not awaited, and
    what is made JSON is its promise. *)
Definition get_subscriptions (env : Env) (authorization : option string) : Async Answer :=
  routed (onError env) 3
    (api env authorization
       (detached Lib.getAllSubscriptions ;;
        ret (json_answer 200 (to_json Date_toISOString promise_object)))).

Definition post_subscribe (env : Env) (authorization : option string) (channelId : string)
  : Async Answer :=
  routed (onError env) 4
    (api env authorization
       (Lib.addSubscription env channelId ;;
        ret (json_answer 200 (message_body "Subscribed!")))).

Definition post_unsubscribe (env : Env) (authorization : option string) (channelId : string)
  : Async Answer :=
  routed (onError env) 4
    (api env authorization
       (Lib.removeSubscription env channelId ;;
        ret (json_answer 200 (message_body "Unsubscribed!")))).

Definition post_force_renew (env : Env) (authorization : option string) : Async Answer :=
  routed (onError env) 3
    (api env authorization
       (Lib.renewAll env ;;
        ret (json_answer 200 (message_body "Forced Renewal Done!")))).

Definition get_callback (env : Env) (challenge : string) : Async Answer :=
  routed (onError env) 3 (ret (text_answer 200 challenge)).

(** The scheduled handler. *)
Definition scheduled (env : Env) : Async unit := Lib.renewAll env.
End WithPlatform.
End LibRouter.

(** The router of [utils.ts] ([src/unnamed/part_001]); its route
    [POST /callback] is [Utils.app_post_callback]. *)
Module UtilsRouter.
Section WithPlatform.
Context `{Platform}.

Definition onError (env : Env) (err : error) : Async Answer :=
  Utils.discordLog env ("Encountered an Error" +:+ LF +:+ error_stack err) ;;
  ret (json_answer 200 (message_body "Something went wrong")).

Definition get_root (env : Env) : Async Answer :=
  routed (onError env) 0
    (ret (json_answer 200 (message_body "Auto-YT-Notify is running!"))).

(** [c.json(await getAllSubscriptions(c.env))] *)
Definition get_subscriptions (env : Env) (authorization : option string) : Async Answer :=
  routed (onError env) 2
    (api env authorization
       (subscriptions <- Utils.getAllSubscriptions ;;
        ret (json_answer 200
               (to_json Date_toISOString (VArr (map Utils.Subscription_value subscriptions)))))).

Definition post_subscribe (env : Env) (authorization : option string) (channelId : string)
  : Async Answer :=
  routed (onError env) 3
    (api env authorization
       (Utils.addSubscription env channelId ;;
        ret (json_answer 200 (message_body "Subscribed!")))).

Definition post_unsubscribe (env : Env) (authorization : option string) (channelId : string)
  : Async Answer :=
  routed (onError env) 3
    (api env authorization
       (Utils.removeSubscription env channelId ;;
        ret (json_answer 200 (message_body "Unsubscribed!")))).

Definition get_callback (env : Env) (challenge : string) : Async Answer :=
  routed (onError env) 2 (ret (text_answer 200 challenge)).

(** The scheduled handler. *)
Definition scheduled (env : Env) : Async unit := Utils.renewSubscriptionCronWorker env.
End WithPlatform.
End UtilsRouter.

(** ** Helpers of the statements *)

(** The message [lib.ts] posts for a video. *)
Definition lib_message `{Platform} (video : Lib.VideoData) : string :=
  join LF
    ["New video from [" +:+ Lib.channel_name video +:+ "](" +:+ Lib.channel_link video +:+ ")";
     "**" +:+ Lib.video_title video +:+ "**";
     " " +:+ Lib.video_link video;
     EmptyString;
     "Published at <t:" +:+ number_text (floor_seconds (Some (Lib.published video))) +:+ ":f>";
     "Updated at <t:" +:+ number_text (floor_seconds (Some (Lib.updated video))) +:+ ":f>"].

(** Reading hexadecimal back: the value of a digit, the byte of two digits,
    the bytes of a string of digits. *)
Definition hex_value (c : ascii) : option N :=
  let n := N_of_ascii c in
  if ((48 <=? n) && (n <=? 57))%N then Some (n - 48)%N
  else if ((97 <=? n) && (n <=? 102))%N then Some (n - 87)%N
  else None.

Fixpoint unhex (s : string) : option (list byte) :=
  match s with
  | EmptyString => Some []
  | String _ EmptyString => None
  | String hi (String lo rest) =>
      match hex_value hi, hex_value lo, unhex rest with
      | Some h, Some l, Some bs =>
          match Byte.of_N (16 * h + l) with
          | Some b => Some (b :: bs)
          | None => None
          end
      | _, _, _ => None
      end
  end.

(** The channel ids of a list of [utils.ts]. *)
Definition utils_channels (l : list Utils.Subscription) : list string :=
  map Utils.channelId l.

(** A hub that answers every call with a success status. *)
Definition hub_says_yes `{Platform} : Prop :=
  forall n r, exists status, fetch_outcome n r = Response status /\ response_ok status = true.

(** The property [k] of a value as the code reads it: [undefined] when the
    value has none. *)
Definition field (k : string) (v : jsval) : jsval := default VUndefined (own_property k v).

(** The values the route of [utils.ts] hands to [dedent] for an entry whose
    dates have the time values [published] and [updated]. *)
Definition utils_values (video : jsval) (published updated : option Z) : list jsval :=
  [field "name" (field "author" video);
   field "uri" (field "author" video);
   field "title" video;
   Utils.nullish_or (field "@_href" (field "link" video)) "*Link unavailable*";
   VNum (floor_seconds published);
   VNum (floor_seconds updated)].

(** The numbers [JSON.stringify] writes as they are, so that [JSON.parse]
    reads them back: the finite ones, [-0] apart. *)
Definition kept_by_JSON (x : number) : bool :=
  match x with
  | Finite _ => true
  | _ => false
  end.

(** A value all of whose numbers are. *)
Fixpoint numbers_kept (v : jsval) : bool :=
  match v with
  | VNum x => kept_by_JSON x
  | VArr l => forallb numbers_kept l
  | VObj fs => forallb (fun kv => numbers_kept (snd kv)) fs
  | _ => true
  end.

(** A list of [utils.ts] all of whose times are. *)
Definition times_kept (l : list Utils.Subscription) : bool :=
  forallb (fun s => kept_by_JSON (Utils.lastSubscribedAt s)) l.

(** A value without a [Date] object in it. *)
Fixpoint no_date (v : jsval) : bool :=
  match v with
  | VDate _ => false
  | VArr l => forallb no_date l
  | VObj fs => forallb (fun kv => no_date (snd kv)) fs
  | _ => true
  end.


Definition lib_overflow : text :=
  Json (Jarr [Jobj [("channelId", Jstr "c1"); ("lastSubscribed", Jstr "100")];
              Jobj [("channelId", Jstr "c2"); ("lastSubscribed", Jnum PosInfinity)]]).

(** The list of [utils_three]. *)
Definition three : list Utils.Subscription :=
  [{| Utils.channelId := "c1"; Utils.lastSubscribedAt := 100 |};
   {| Utils.channelId := "c2"; Utils.lastSubscribedAt := 200 |};
   {| Utils.channelId := "c3"; Utils.lastSubscribedAt := 300 |}].

(** The header of the example push: the digest the toy platform computes
    for its body under the secret of [toy_env]. *)
Definition example_signature : string :=
  Eval vm_compute in
    "sha256=" +:+ hex_of_bytes (list_byte_of_string "s3cret" ++ list_byte_of_string example_xml).

(** * Theorems *)

(** ** The hub client *)

Section HubClient.
Context `{Platform}.

Lemma fetch_eq r w :
  fetch r w =
    (match fetch_outcome (ticks w) r with
     | NetworkFailure => Throw (PlatformError "fetch")
     | Response status => Ok status
     end, after_fetch r w).
Proof. unfold fetch, after_fetch, tick; simpl. destruct (fetch_outcome _ _); reflexivity. Qed.

Lemma lib_requestSubscription_eq mode c secret cb w :
  Lib.requestSubscription mode c secret cb w =
    (match fetch_outcome (ticks w) (hub_request mode c secret cb) with
     | NetworkFailure => Throw (PlatformError "fetch")
     | Response status => Ok (response_ok status)
     end, after_fetch (hub_request mode c secret cb) w).
Proof.
  unfold Lib.requestSubscription, bind. rewrite fetch_eq.
  fold (hub_request mode c secret cb).
  destruct (fetch_outcome _ _); [reflexivity|].
  destruct (response_ok status); reflexivity.
Qed.

Lemma utils_requestSubscription_eq mode c secret cb w :
  Utils.requestSubscription mode c secret cb w =
    (match fetch_outcome (ticks w) (hub_request mode c secret cb) with
     | NetworkFailure => Throw (PlatformError "fetch")
     | Response status => Ok (response_ok status)
     end, after_fetch (hub_request mode c secret cb) w).
Proof.
  unfold Utils.requestSubscription, bind. rewrite fetch_eq.
  fold (hub_request mode c secret cb).
  destruct (fetch_outcome _ _); [reflexivity|].
  destruct (response_ok status); reflexivity.
Qed.

(** C7, as amended: [requestSubscription] sends one POST to the hub; when
    the hub answers, it returns [true] exactly when the status is a
    success status and [false] otherwise; when the call itself fails, it
    returns nothing: the rejection of [fetch] goes on to the caller. *)
Theorem requestSubscription_one_post mode c secret cb w :
  let r := hub_request mode c secret cb in
  (Lib.requestSubscription mode c secret cb w =
     (match fetch_outcome (ticks w) r with
      | NetworkFailure => Throw (PlatformError "fetch")
      | Response status => Ok (response_ok status)
      end, after_fetch r w))
  /\ (Utils.requestSubscription mode c secret cb w =
     (match fetch_outcome (ticks w) r with
      | NetworkFailure => Throw (PlatformError "fetch")
      | Response status => Ok (response_ok status)
      end, after_fetch r w)).
Proof.
  split; [apply lib_requestSubscription_eq | apply utils_requestSubscription_eq].
Qed.
End HubClient.

(** C7 as stated fails: with the network down, [requestSubscription]
    rejects, in both files, where the claim has it return [false]. *)
Lemma requestSubscription_network_failure :
  let P := toy_platform VNull (fun _ => NetworkFailure) in
  fst (@Lib.requestSubscription P subscribe "c1" "s3cret" "https://example.org/callback"
         empty_world) <> Ok false
  /\ fst (@Utils.requestSubscription P subscribe "c1" "s3cret" "https://example.org/callback"
            empty_world) <> Ok false.
Proof. split; vm_compute; discriminate. Qed.

(** ** The signature check *)

Section Strings.
Lemma append_empty_r s : s +:+ EmptyString = s.
Proof. induction s as [|a s IH]; cbn; [reflexivity | now rewrite IH]. Qed.

Lemma concat_empty_cons x l :
  String.concat EmptyString (x :: l) = x +:+ String.concat EmptyString l.
Proof. destruct l; simpl; [now rewrite append_empty_r | reflexivity]. Qed.

Lemma has_char_app c s1 s2 : has_char c (s1 +:+ s2) = has_char c s1 || has_char c s2.
Proof. induction s1; simpl; [reflexivity|]. rewrite IHs1. now rewrite orb_assoc. Qed.

Lemma string_map_app f s1 s2 : string_map f (s1 +:+ s2) = string_map f s1 +:+ string_map f s2.
Proof. induction s1 as [|a s1 IH]; cbn; [reflexivity | now rewrite IH]. Qed.

Lemma string_map_get f i s : String.get i (string_map f s) = option_map f (String.get i s).
Proof. revert i; induction s; intros [|i]; simpl; auto. Qed.

Lemma ascii_lower_eq_sign c : Ascii.eqb (ascii_lower c) "="%char = Ascii.eqb c "="%char.
Proof. destruct c as [[] [] [] [] [] [] [] []]; reflexivity. Qed.

Lemma has_eq_toLowerCase s : has_char "="%char (toLowerCase s) = has_char "="%char s.
Proof.
  unfold toLowerCase. induction s as [|a s IH]; simpl; [reflexivity|].
  now rewrite ascii_lower_eq_sign, IH.
Qed.

Lemma hex_of_byte_no_eq b : has_char "="%char (hex_of_byte b) = false.
Proof. destruct b; reflexivity. Qed.

Lemma hex_of_byte_lower b : toLowerCase (hex_of_byte b) = hex_of_byte b.
Proof. destruct b; reflexivity. Qed.

Lemma hex_of_bytes_no_eq bs : has_char "="%char (hex_of_bytes bs) = false.
Proof.
  unfold hex_of_bytes. induction bs as [|b bs IH]; [reflexivity|].
  rewrite map_cons, concat_empty_cons, has_char_app, hex_of_byte_no_eq, IH. reflexivity.
Qed.

Lemma hex_of_bytes_lower bs : toLowerCase (hex_of_bytes bs) = hex_of_bytes bs.
Proof.
  unfold hex_of_bytes, toLowerCase. induction bs as [|b bs IH]; [reflexivity|].
  rewrite map_cons, concat_empty_cons, string_map_app, IH.
  now rewrite (hex_of_byte_lower b : string_map _ _ = _).
Qed.

Lemma split_no_sep c s : has_char c s = false -> split c s = [s].
Proof.
  induction s as [|a s IH]; simpl; [reflexivity|].
  intros Hc. apply orb_false_iff in Hc as [Ha Hs].
  rewrite Ha, (IH Hs). reflexivity.
Qed.

Lemma has_char_set_char c i x s :
  x <> c -> has_char c s = false -> has_char c (set_char i x s) = false.
Proof.
  intros Hx. revert i; induction s as [|a s IH]; intros i; simpl; [reflexivity|].
  intros Hc. apply orb_false_iff in Hc as [Ha Hs].
  destruct i; simpl.
  - rewrite Hs, orb_false_r. now apply Ascii.eqb_neq.
  - now rewrite Ha, IH.
Qed.

Lemma get_set_char i x c0 s : String.get i s = Some c0 -> String.get i (set_char i x s) = Some x.
Proof. revert i; induction s as [|a s IH]; intros [|i]; simpl; try discriminate; auto. Qed.
End Strings.

Section Signature.
Context `{Platform}.

Lemma split_sha256 D :
  has_char "="%char D = false -> split "="%char ("sha256=" +:+ D) = ["sha256"; D].
Proof.
  intros HD. change ("sha256=" +:+ D) with
    (String "s" (String "h" (String "a" (String "2" (String "5" (String "6"
       (String "=" D))))))).
  cbn [split Ascii.eqb Bool.eqb]. now rewrite (split_no_sep _ _ HD).
Qed.

Lemma lib_verify_sha256 secret D xml w :
  has_char "="%char D = false ->
  Lib.verifyNotificationSignature secret ("sha256=" +:+ D) xml w =
    match crypto_subtle_importKey "SHA-256" (TextEncoder_encode secret) with
    | Throw e => (Throw e, w)
    | Ok key =>
        match crypto_subtle_sign key (TextEncoder_encode xml) with
        | Throw e => (Throw e, w)
        | Ok digest =>
            (Ok (String.eqb (toLowerCase (hex_of_bytes digest)) (toLowerCase D)), w)
        end
    end.
Proof.
  intros HD. unfold Lib.verifyNotificationSignature.
  rewrite (split_sha256 _ HD). cbn [lookup list_lookup default id].
  change (replace "SHA" "SHA-" (toUpperCase "sha256")) with "SHA-256".
  unfold bind, lift, ret.
  destruct (crypto_subtle_importKey _ _) as [key|e]; [|reflexivity].
  destruct (crypto_subtle_sign _ _) as [digest|e]; reflexivity.
Qed.

Lemma lib_verify_rejects secret signature xml w e :
  crypto_subtle_importKey (lib_hash_name signature) (TextEncoder_encode secret) = Throw e ->
  Lib.verifyNotificationSignature secret signature xml w = (Throw e, w).
Proof.
  intros He. unfold Lib.verifyNotificationSignature, bind, lift.
  fold (lib_hash_name signature). now rewrite He.
Qed.

Lemma utils_verify_rejects env signature xml w e :
  crypto_subtle_importKey (utils_hash_name signature)
    (TextEncoder_encode (API_SECRET env)) = Throw e ->
  Utils.verifyNotificationSignature env signature xml w = (Throw e, w).
Proof.
  intros He. unfold Utils.verifyNotificationSignature, bind, lift.
  fold (utils_hash_name signature). now rewrite He.
Qed.

(** The check reads the world and leaves it as it is. *)
Lemma lib_verify_world secret signature xml w :
  snd (Lib.verifyNotificationSignature secret signature xml w) = w.
Proof.
  unfold Lib.verifyNotificationSignature, bind, lift, ret, throw.
  destruct (crypto_subtle_importKey _ _); [|reflexivity].
  destruct (crypto_subtle_sign _ _); [|reflexivity].
  destruct (split _ _ !! 1%nat); reflexivity.
Qed.

(** C2, as amended.  In [lib.ts]: for a header [sha256=D] where [D] is,
    in any case of the letters, the hexadecimal HMAC-SHA256 digest of the
    body under the secret, the check returns [true]; with one character of
    [D] changed to another one (not the same digit in the other case, and
    not an equals sign) it returns [false].  In both files, for a header
    whose algorithm name the platform has no hash for, the check returns
    neither: the rejection of [importKey] goes on to the caller. *)
Theorem verifyNotificationSignature_digest (secret xml : string) (w : World) :
  (forall key digest D,
      crypto_subtle_importKey "SHA-256" (TextEncoder_encode secret) = Ok key ->
      crypto_subtle_sign key (TextEncoder_encode xml) = Ok digest ->
      toLowerCase D = hex_of_bytes digest ->
      Lib.verifyNotificationSignature secret ("sha256=" +:+ D) xml w = (Ok true, w)
      /\ forall i c0 c,
          String.get i D = Some c0 ->
          c <> "="%char ->
          ascii_lower c <> ascii_lower c0 ->
          Lib.verifyNotificationSignature secret ("sha256=" +:+ set_char i c D) xml w
          = (Ok false, w))
  /\ (forall signature e,
        crypto_subtle_importKey (lib_hash_name signature) (TextEncoder_encode secret)
        = Throw e ->
        Lib.verifyNotificationSignature secret signature xml w = (Throw e, w))
  /\ (forall env signature e,
        crypto_subtle_importKey (utils_hash_name signature)
          (TextEncoder_encode (API_SECRET env)) = Throw e ->
        Utils.verifyNotificationSignature env signature xml w = (Throw e, w)).
Proof.
  split; [|split].
  - intros key digest D Hkey Hsign HD.
    assert (Hno : has_char "="%char D = false).
    { rewrite <- has_eq_toLowerCase, HD. apply hex_of_bytes_no_eq. }
    split.
    + rewrite (lib_verify_sha256 _ _ _ _ Hno), Hkey, Hsign.
      rewrite hex_of_bytes_lower, HD, String.eqb_refl. reflexivity.
    + intros i c0 c Hget Hc Hlow.
      rewrite lib_verify_sha256 by (apply has_char_set_char; assumption).
      rewrite Hkey, Hsign, hex_of_bytes_lower, <- HD.
      destruct (String.eqb_spec (toLowerCase D) (toLowerCase (set_char i c D)))
        as [Heq|Hne]; [|reflexivity].
      exfalso. apply Hlow.
      assert (Hi : String.get i (toLowerCase D) = String.get i (toLowerCase (set_char i c D)))
        by now rewrite Heq.
      unfold toLowerCase in Hi. rewrite !string_map_get in Hi.
      rewrite (get_set_char _ _ _ _ Hget), Hget in Hi. simpl in Hi. congruence.
  - intros signature e. apply lib_verify_rejects.
  - intros env signature e. apply utils_verify_rejects.
Qed.
End Signature.

(** C2 as stated fails in its last part: for the header [md5=00], whose
    algorithm the platform has no hash for, the check does not return
    [false]; it rejects, in both files. *)
Lemma verifyNotificationSignature_unsupported :
  let P := toy_platform VNull (fun _ => Response 204) in
  @crypto_subtle_importKey P (lib_hash_name "md5=00") (@TextEncoder_encode P "s3cret")
  = Throw (PlatformError "NotSupportedError")
  /\ fst (@Lib.verifyNotificationSignature P "s3cret" "md5=00" "<feed/>" empty_world)
     <> Ok false
  /\ fst (@Utils.verifyNotificationSignature P toy_env "md5=00" "<feed/>" empty_world)
     <> Ok false.
Proof. repeat split; vm_compute; discriminate. Qed.

Lemma verifyNotificationSignature_digest_witness :
  let P := toy_platform VNull (fun _ => Response 204) in
  @Lib.verifyNotificationSignature P "s3cret" ("sha256=" +:+ toy_D) "body" empty_world
  = (Ok true, empty_world)
  /\ @Lib.verifyNotificationSignature P "s3cret" ("sha256=" +:+ set_char 0 "0" toy_D) "body"
       empty_world = (Ok false, empty_world)
  /\ @Lib.verifyNotificationSignature P "s3cret" "md5=00" "body" empty_world
     = (Throw (PlatformError "NotSupportedError"), empty_world)
  /\ @Utils.verifyNotificationSignature P toy_env "md5=00" "body" empty_world
     = (Throw (PlatformError "NotSupportedError"), empty_world).
Proof.
  intros P.
  destruct (@verifyNotificationSignature_digest P "s3cret" "body" empty_world)
    as (Hdigest & Hlib & Hutils).
  destruct (Hdigest (list_byte_of_string "s3cret") toy_digest toy_D
              eq_refl eq_refl eq_refl) as [Htrue Hfalse].
  split; [exact Htrue|].
  split; [apply (Hfalse 0%nat "7"%char "0"%char);
          [reflexivity | vm_compute; discriminate | vm_compute; discriminate]|].
  split; [apply Hlib; reflexivity | apply Hutils; reflexivity].
Defined.

(** ** The feed classifier of [lib.ts] *)

Section Classifier.

Lemma callbackSchema_entry_eq data feed e :
  is_object data = true ->
  own_property "feed" data = Some feed ->
  is_object feed = true ->
  own_property "at:deleted-entry" feed = None ->
  own_property "entry" feed = Some e ->
  Lib.callbackSchema data =
    match Lib.entrySchema e with
    | None => match e with VUndefined => Some None | _ => None end
    | Some video =>
        Some (Some {| Lib.video_id := Lib.entry_videoId video;
                      Lib.video_title := Lib.entry_title video;
                      Lib.video_link :=
                        "https://www.youtube.com/watch?v=" +:+ Lib.entry_videoId video;
                      Lib.channel_id := Lib.entry_channelId video;
                      Lib.channel_name := Lib.entry_author_name video;
                      Lib.channel_link := Lib.entry_author_uri video;
                      Lib.published := Lib.entry_published video;
                      Lib.updated := Lib.entry_updated video |})
    end.
Proof.
  intros Hdata Hfeed Hobj Hdel Hentry.
  unfold Lib.callbackSchema, v_pipe_transform, v_object at 1. rewrite Hdata.
  unfold v_entry at 1. rewrite Hfeed.
  unfold Lib.feedSchema, v_union, v_object at 1 2. rewrite Hobj.
  unfold v_entry at 1. rewrite Hdel. cbn [fmap option_fmap option_map].
  unfold v_entry_optional. rewrite Hentry.
  destruct (Lib.entrySchema e) as [video|] eqn:He.
  - destruct e; try (cbn in He; discriminate He); reflexivity.
  - destruct e; reflexivity.
Qed.

(** The entry schema looks at its own keys: a [link] node, of any shape,
    in front of the fields of an entry changes nothing. *)
Lemma entrySchema_link x fs :
  Lib.entrySchema (VObj (("link", x) :: fs)) = Lib.entrySchema (VObj fs).
Proof. reflexivity. Qed.

(** An entry node the schema has issues with, and no deletion marker to
    hide it: the document has issues; with a marker the output is [null]. *)
Lemma callbackSchema_invalid_entry data feed e :
  own_property "feed" data = Some feed ->
  own_property "entry" feed = Some e ->
  Lib.entrySchema e = None ->
  Lib.callbackSchema data = None \/ Lib.callbackSchema data = Some None.
Proof.
  intros Hfeed Hentry He.
  destruct (Lib.callbackSchema data) as [output|] eqn:Hr; [right|left; reflexivity].
  revert Hr. unfold Lib.callbackSchema, v_pipe_transform, v_object at 1.
  destruct (is_object data); [|discriminate].
  unfold v_entry at 1. rewrite Hfeed.
  unfold Lib.feedSchema, v_union, v_object at 1 2.
  destruct (is_object feed); [|discriminate].
  unfold v_entry at 1, v_unknown.
  destruct (own_property "at:deleted-entry" feed); [cbn; congruence|].
  cbn [fmap option_fmap option_map].
  unfold v_entry_optional. rewrite Hentry.
  destruct e; try rewrite He; cbn; congruence.
Qed.
End Classifier.

(** ** The notification pipeline *)

Section Pipeline.
Context `{Platform}.

(** [lib.ts]: a push without the header, with an empty one, or with one the
    check does not return [true] for, is rejected, and the world is as it
    was: nothing was parsed, nothing was sent. *)
Lemma lib_callback_rejects env xml signature w :
  match signature with
  | None => True
  | Some s =>
      s = EmptyString
      \/ fst (Lib.verifyNotificationSignature (API_SECRET env) s xml w) <> Ok true
  end ->
  exists e, Lib.callback env xml signature w = (Throw e, w).
Proof.
  intros Hsig. unfold Lib.callback, bind.
  destruct signature as [s|]; [|eexists; reflexivity].
  destruct (String.eqb_spec s EmptyString) as [->|Hs]; [eexists; reflexivity|].
  destruct Hsig as [Hempty|Hverify]; [contradiction|].
  pose proof (lib_verify_world (API_SECRET env) s xml w) as Hw.
  destruct (Lib.verifyNotificationSignature _ s xml w) as [[[|]|e] w']; simpl in *; subst w'.
  - congruence.
  - eexists; reflexivity.
  - eexists; reflexivity.
Qed.

(** [lib.ts]: a verified push whose document the schema has issues with, or
    classifies as nothing to send, is ignored: no error, and the world is as
    it was. *)
Lemma lib_callback_ignores env xml s w data :
  s <> EmptyString ->
  fst (Lib.verifyNotificationSignature (API_SECRET env) s xml w) = Ok true ->
  XMLParser_parse false xml = Ok data ->
  Lib.callbackSchema data = None \/ Lib.callbackSchema data = Some None ->
  Lib.callback env xml (Some s) w = (Ok tt, w).
Proof.
  intros Hs Hverify Hparse Hschema. unfold Lib.callback, bind.
  destruct (String.eqb_spec s EmptyString) as [->|_]; [contradiction|].
  pose proof (lib_verify_world (API_SECRET env) s xml w) as Hw.
  destruct (Lib.verifyNotificationSignature _ s xml w) as [r w']; simpl in *; subst w' r.
  simpl. unfold lift. rewrite Hparse.
  destruct Hschema as [-> | ->]; reflexivity.
Qed.

(** [lib.ts]: a verified push whose entry node the entry schema has issues
    with is ignored. *)
Lemma lib_callback_invalid_entry env xml s w data feed e :
  s <> EmptyString ->
  fst (Lib.verifyNotificationSignature (API_SECRET env) s xml w) = Ok true ->
  XMLParser_parse false xml = Ok data ->
  own_property "feed" data = Some feed ->
  own_property "entry" feed = Some e ->
  Lib.entrySchema e = None ->
  Lib.callback env xml (Some s) w = (Ok tt, w).
Proof.
  intros Hs Hverify Hparse Hfeed Hentry He.
  apply (lib_callback_ignores env xml s w data Hs Hverify Hparse).
  exact (callbackSchema_invalid_entry data feed e Hfeed Hentry He).
Qed.

(** The route of the router of [lib.ts] answers such a push with the
    status 500. *)
Lemma lib_post_callback_rejects env xml signature w :
  match signature with
  | None => True
  | Some s =>
      s = EmptyString
      \/ fst (Lib.verifyNotificationSignature (API_SECRET env) s xml w) <> Ok true
  end ->
  exists message, Lib.post_callback env xml signature w = (Ok (text_response 500 message), w).
Proof.
  intros Hsig. destruct (lib_callback_rejects env xml signature w Hsig) as [e He].
  unfold Lib.post_callback. rewrite He. eexists; reflexivity.
Qed.

(** The route of the other router goes on to the document whatever the
    header says, once there is one: the check it calls is not awaited. *)
Lemma utils_post_callback_unverified env xml c s w :
  Utils.post_callback env xml (Some (String c s)) w
  = (data <- lift (XMLParser_parse true xml) ;; Utils.notify env data) w.
Proof. reflexivity. Qed.
End Pipeline.

(** C1, on the route of the router of [utils.ts]: for the header
    [sha-256=00], which the check returns [false] for, and a feed with an
    entry, the route answers [OK] and has posted the notification. *)
Theorem utils_post_callback_forwards_unverified :
  let P := toy_platform (document (parsed_entry link_node)) (fun _ => Response 204) in
  fst (@Utils.verifyNotificationSignature P toy_env "sha-256=00" example_xml empty_world)
  = Ok false
  /\ fst (@Utils.app_post_callback P toy_env example_xml (Some "sha-256=00") empty_world)
     = Ok (text_response 200 "OK")
  /\ map request_content
       (sent (snd (@Utils.app_post_callback P toy_env example_xml (Some "sha-256=00")
                     empty_world)))
     = [Some (join LF ["New video from [A](http://a)";
                       "**T**";
                       "*Link unavailable*";
                       EmptyString;
                       "Published at <t:1704067200:f>";
                       "Updated at <t:1704153600:f>"])].
Proof. repeat split. Qed.

(** C4, on the route of the router of [utils.ts]: an entry without a title
    is posted, with [undefined] for its title; an entry without an author
    makes the route throw, and the router posts the error. *)
Theorem utils_post_callback_no_validation :
  let P := fun entry => toy_platform (document entry) (fun _ => Response 204) in
  map request_content
    (sent (snd (@Utils.app_post_callback (P (untitled_entry link_node)) toy_env example_xml
                  (Some "sha-256=00") empty_world)))
  = [Some (join LF ["New video from [A](http://a)";
                    "**undefined**";
                    "*Link unavailable*";
                    EmptyString;
                    "Published at <t:1704067200:f>";
                    "Updated at <t:1704153600:f>"])]
  /\ fst (@Utils.post_callback (P (authorless_entry link_node)) toy_env example_xml
            (Some "sha-256=00") empty_world) = Throw TypeError
  /\ map request_content
       (sent (snd (@Utils.app_post_callback (P (authorless_entry link_node)) toy_env
                     example_xml (Some "sha-256=00") empty_world)))
     = [Some ("Encountered an Error" +:+ LF +:+ "TypeError")].
Proof. repeat split. Qed.

(** The link the route of [utils.ts] posts is the attribute of the [link]
    node, when the parser keeps attributes, and none when it does not; it is
    not made from the video id. *)
Lemma utils_post_callback_link :
  let P := fun entry => toy_platform (document entry) (fun _ => Response 204) in
  map request_content
    (sent (snd (@Utils.notify (P (parsed_entry link_node_with_attributes)) toy_env
                  (document (parsed_entry link_node_with_attributes)) empty_world)))
  = [Some (join LF ["New video from [A](http://a)";
                    "**T**";
                    "https://example.org/elsewhere";
                    EmptyString;
                    "Published at <t:1704067200:f>";
                    "Updated at <t:1704153600:f>"])].
Proof. reflexivity. Qed.

(** ** The registry of [utils.ts] *)

Section UtilsRegistry.
Context `{Platform}.

(** What [getAllSubscriptions] does, by what the key holds. *)
Lemma utils_getAllSubscriptions_eq w :
  Utils.getAllSubscriptions w =
    match KV w !! Utils.SUBSCRIPTION_KV_KEY with
    | None | Some (NotJson false) => (Ok [], tick w)
    | Some (NotJson true) => (Throw SyntaxError, tick w)
    | Some (Json j) =>
        match v_array Utils.subscription (of_json j) with
        | Some output => (Ok output, tick w)
        | None =>
            (Ok [], {| KV := delete Utils.SUBSCRIPTION_KV_KEY (KV w);
                       sent := sent w; ticks := S (S (ticks w)) |})
        end
    end.
Proof.
  unfold Utils.getAllSubscriptions, bind, KV_get.
  destruct (KV w !! Utils.SUBSCRIPTION_KV_KEY) as [[[|]|j]|]; try reflexivity.
  simpl. destruct (v_array Utils.subscription (of_json j)); reflexivity.
Qed.

(** Reading the list sends nothing, and touches the store only to delete a
    text that is JSON and not a list of subscriptions. *)
Lemma utils_getAllSubscriptions_world w r w1 :
  Utils.getAllSubscriptions w = (r, w1) ->
  sent w1 = sent w
  /\ (KV w1 = KV w
      \/ (r = Ok []
          /\ (exists j, KV w !! Utils.SUBSCRIPTION_KV_KEY = Some (Json j)
                        /\ v_array Utils.subscription (of_json j) = None)
          /\ KV w1 = delete Utils.SUBSCRIPTION_KV_KEY (KV w))).
Proof.
  rewrite utils_getAllSubscriptions_eq.
  destruct (KV w !! Utils.SUBSCRIPTION_KV_KEY) as [[[|]|j]|] eqn:Hkey;
    try (intros [= <- <-]; split; [reflexivity | left; reflexivity]).
  destruct (v_array Utils.subscription (of_json j)) eqn:Hv; intros [= <- <-].
  - split; [reflexivity | left; reflexivity].
  - split; [reflexivity | right]. repeat split; eauto.
Qed.

(** What is read depends on the store alone. *)
Lemma utils_getAllSubscriptions_store w w' :
  KV w' = KV w ->
  fst (Utils.getAllSubscriptions w') = fst (Utils.getAllSubscriptions w).
Proof.
  intros HKV. rewrite !utils_getAllSubscriptions_eq, HKV.
  destruct (KV w !! Utils.SUBSCRIPTION_KV_KEY) as [[[|]|j]|]; try reflexivity.
  destruct (v_array Utils.subscription (of_json j)); reflexivity.
Qed.

(** A list that was read is read again, also after a corrupt text was
    deleted on the way. *)
Lemma utils_getAllSubscriptions_again w l w1 :
  Utils.getAllSubscriptions w = (Ok l, w1) ->
  fst (Utils.getAllSubscriptions w1) = Ok l.
Proof.
  rewrite !utils_getAllSubscriptions_eq.
  destruct (KV w !! Utils.SUBSCRIPTION_KV_KEY) as [[[|]|j]|] eqn:Hkey.
  - discriminate.
  - intros [= <- <-]. simpl. now rewrite Hkey.
  - destruct (v_array Utils.subscription (of_json j)) eqn:Hv; intros [= <- <-]; simpl.
    + now rewrite Hkey, Hv.
    + now rewrite lookup_delete_eq.
  - intros [= <- <-]. simpl. now rewrite Hkey.
Qed.

(** C5, for [utils.ts]: a stored text that is JSON and that the schema has
    issues with is deleted, and the list is empty; no error comes out. *)
Lemma utils_getAllSubscriptions_corrupt w j :
  KV w !! Utils.SUBSCRIPTION_KV_KEY = Some (Json j) ->
  v_array Utils.subscription (of_json j) = None ->
  exists w1,
    Utils.getAllSubscriptions w = (Ok [], w1)
    /\ KV w1 = delete Utils.SUBSCRIPTION_KV_KEY (KV w)
    /\ KV w1 !! Utils.SUBSCRIPTION_KV_KEY = None
    /\ fst (Utils.getAllSubscriptions w1) = Ok [].
Proof.
  intros Hkey Hv. rewrite utils_getAllSubscriptions_eq, Hkey, Hv.
  eexists; split; [reflexivity|]. simpl.
  split; [reflexivity|]. split; [apply lookup_delete_eq|].
  rewrite utils_getAllSubscriptions_eq. simpl. now rewrite lookup_delete_eq.
Qed.

(** What is written is read back, when [JSON.stringify] keeps the times. *)
Lemma subscription_roundtrip l :
  times_kept l = true ->
  v_array Utils.subscription
    (of_json (to_json Date_toISOString (VArr (map Utils.Subscription_value l)))) = Some l.
Proof.
  intros Hkept. cbn [to_json of_json v_array]. rewrite !map_map.
  apply mapM_Some_2. revert Hkept. unfold times_kept.
  induction l as [|[c t] l IH]; cbn [map forallb]; intros Hkept; constructor.
  - apply andb_true_iff in Hkept as [Ht _]. cbn in Ht.
    destruct t; try discriminate Ht. reflexivity.
  - apply IH. now apply andb_true_iff in Hkept as [_ Hl].
Qed.

(** What is read of a list that was written: the same channels, when it is
    read as a list at all. *)
Lemma subscription_written_channels l l' :
  v_array Utils.subscription
    (of_json (to_json Date_toISOString (VArr (map Utils.Subscription_value l)))) = Some l' ->
  map Utils.channelId l' = map Utils.channelId l.
Proof.
  cbn [to_json of_json v_array]. rewrite !map_map. intros Hread.
  apply mapM_Some_1 in Hread. revert l' Hread.
  induction l as [|[c t] l IH]; intros l' Hread; cbn [map] in Hread;
    inversion Hread as [|? s ? l0 Hs Hl]; subst; [reflexivity|].
  cbn [map]. rewrite (IH l0 Hl). f_equal.
  destruct t; cbn in Hs; try discriminate Hs; injection Hs as <-; reflexivity.
Qed.
End UtilsRegistry.

Section UtilsAddRemove.
Context `{Platform}.

Lemma utils_addSubscription_eq env c w l w1 :
  Utils.getAllSubscriptions w = (Ok l, w1) ->
  let r := hub_request subscribe c (API_SECRET env)
             ("https://" +:+ APP_DOMAIN env +:+ "/callback") in
  Utils.addSubscription env c w =
    match Utils.find_channel c l with
    | Some _ => (Ok tt, w1)
    | None =>
        match fetch_outcome (ticks w1) r with
        | NetworkFailure => (Throw (PlatformError "fetch"), after_fetch r w1)
        | Response status =>
            if response_ok status
            then (Ok tt,
                  utils_written
                    (l ++ [{| Utils.channelId := c;
                              Utils.lastSubscribedAt := clock (S (ticks w1)) |}])
                    (after_fetch r w1))
            else (Throw (Error "Failed to subscribe!"), after_fetch r w1)
        end
    end.
Proof.
  intros Hget r. unfold Utils.addSubscription, bind at 1. rewrite Hget.
  destruct (Utils.find_channel c l); [reflexivity|].
  unfold bind at 1. rewrite utils_requestSubscription_eq. fold r.
  destruct (fetch_outcome (ticks w1) r) as [|status]; [reflexivity|].
  destruct (response_ok status); reflexivity.
Qed.

Lemma utils_removeSubscription_eq env c w l w1 :
  Utils.getAllSubscriptions w = (Ok l, w1) ->
  let r := hub_request unsubscribe c (API_SECRET env) (APP_DOMAIN env +:+ "/callback") in
  Utils.removeSubscription env c w =
    match Utils.find_channel c l with
    | None => (Ok tt, w1)
    | Some _ =>
        match fetch_outcome (ticks w1) r with
        | NetworkFailure => (Throw (PlatformError "fetch"), after_fetch r w1)
        | Response status =>
            if response_ok status
            then (Ok tt,
                  utils_written
                    (List.filter (fun s => negb (String.eqb (Utils.channelId s) c)) l)
                    (after_fetch r w1))
            else (Throw (Error "Failed to unsubscribe!"), after_fetch r w1)
        end
    end.
Proof.
  intros Hget r. unfold Utils.removeSubscription, bind at 1. rewrite Hget.
  destruct (Utils.find_channel c l); [|reflexivity].
  unfold bind at 1. rewrite utils_requestSubscription_eq. fold r.
  destruct (fetch_outcome (ticks w1) r) as [|status]; [reflexivity|].
  destruct (response_ok status); reflexivity.
Qed.

(** Reading after a write gives what was written, when [JSON.stringify]
    keeps the times. *)
Lemma utils_getAllSubscriptions_written l w :
  times_kept l = true ->
  Utils.getAllSubscriptions (utils_written l w) = (Ok l, tick (utils_written l w)).
Proof.
  intros Hkept. rewrite utils_getAllSubscriptions_eq. cbn [KV utils_written].
  rewrite lookup_insert_eq. unfold JSON_stringify.
  now rewrite (subscription_roundtrip l Hkept).
Qed.

(** Whatever the times: what is read after a write is a list, and it has
    the channels that were written, or it is empty. *)
Lemma utils_getAllSubscriptions_written_any l w :
  exists l',
    fst (Utils.getAllSubscriptions (utils_written l w)) = Ok l'
    /\ (l' = [] \/ map Utils.channelId l' = map Utils.channelId l).
Proof.
  rewrite utils_getAllSubscriptions_eq. cbn [KV utils_written].
  rewrite lookup_insert_eq. unfold JSON_stringify.
  destruct (v_array Utils.subscription _) as [l'|] eqn:Hread.
  - exists l'. split; [reflexivity|]. right. exact (subscription_written_channels _ _ Hread).
  - exists []. split; [reflexivity | now left].
Qed.

Lemma times_kept_app l1 l2 : times_kept (l1 ++ l2) = times_kept l1 && times_kept l2.
Proof. unfold times_kept. apply forallb_app. Qed.

Lemma times_kept_filter p l : times_kept l = true -> times_kept (List.filter p l) = true.
Proof.
  unfold times_kept. induction l as [|s l IH]; cbn [forallb List.filter]; [reflexivity|].
  intros Hkept. apply andb_true_iff in Hkept as [Hs Hl].
  destruct (p s); cbn [forallb]; [rewrite Hs|]; auto.
Qed.

Lemma utils_find_channel_count c l :
  Utils.find_channel c l = None <-> utils_count c l = 0%nat.
Proof.
  unfold Utils.find_channel, utils_count.
  induction l as [|s l IH]; simpl; [tauto|].
  destruct (String.eqb (Utils.channelId s) c); simpl; [split; discriminate | exact IH].
Qed.


(** A list with a subscription in it was read from a valid text: the store
    is as it was. *)
Lemma utils_getAllSubscriptions_found w l w1 c s :
  Utils.getAllSubscriptions w = (Ok l, w1) ->
  Utils.find_channel c l = Some s ->
  KV w1 = KV w /\ sent w1 = sent w.
Proof.
  intros Hget Hfind.
  destruct (utils_getAllSubscriptions_world _ _ _ Hget) as [Hsent [HKV | (Hnil & _)]].
  - split; assumption.
  - injection Hnil as ->. discriminate Hfind.
Qed.
End UtilsAddRemove.

(** ** The registry of [lib.ts] *)

Section Json.
Variable toISOString : Z -> string.

(** A parsed value is written as the text it was parsed from, when
    [JSON.stringify] keeps its numbers. *)
Lemma to_json_of_json : forall j,
  numbers_kept (of_json j) = true -> to_json toISOString (of_json j) = j.
Proof.
  fix IH 1. intros [ | b | x | s | l | fs]; cbn [of_json to_json numbers_kept];
    intros Hkept; try reflexivity.
  - destruct x; try discriminate Hkept; reflexivity.
  - f_equal. rewrite map_map.
    induction l as [|y l IHl]; [reflexivity|].
    cbn [map forallb] in *. apply andb_true_iff in Hkept as [Hy Hl].
    now rewrite (IH y Hy), (IHl Hl).
  - f_equal.
    induction fs as [|[k v] fs IHfs]; [reflexivity|].
    cbn [map forallb fst snd] in *. apply andb_true_iff in Hkept as [Hv Hfs].
    unfold omap in *. cbn [list_omap fst snd]. rewrite (IHfs Hfs).
    specialize (IH v Hv).
    destruct v; cbn [of_json] in *; try reflexivity; now rewrite IH.
Qed.


Lemma of_json_array j l : of_json j = VArr l -> exists js, j = Jarr js /\ l = map of_json js.
Proof. destruct j; simpl; try discriminate. intros [= <-]. eauto. Qed.
End Json.

Section ArrayMethods.
Lemma channelId_is_truthy c x : channelId_is c x = Ok true -> truthy x = true.
Proof.
  destruct x as [ | | b | n | s | t | | l | fs]; simpl; try discriminate; try reflexivity.
  destruct s; [discriminate | reflexivity].
Qed.

Lemma Array_find_truthy c l x :
  Array_find (channelId_is c) l = Ok x -> x <> VUndefined -> truthy x = true.
Proof.
  induction l as [|y l IH]; simpl; [congruence|].
  destruct (channelId_is c y) as [[|]|e] eqn:Hy; [|exact IH|discriminate].
  intros [= <-] _. exact (channelId_is_truthy _ _ Hy).
Qed.


End ArrayMethods.

Section LibRegistry.
Context `{Platform}.

Lemma lib_getAllSubscriptions_eq w :
  Lib.getAllSubscriptions w =
    (match KV w !! "subscriptions" with
     | None | Some (NotJson false) => Ok (VArr [])
     | Some (NotJson true) => Throw SyntaxError
     | Some (Json j) => Ok (of_json j)
     end, tick w).
Proof.
  unfold Lib.getAllSubscriptions, bind, KV_get, lift.
  destruct (KV w !! "subscriptions") as [[[|]|j]|]; reflexivity.
Qed.

(** Reading the list changes neither the store nor what was sent. *)
Lemma lib_getAllSubscriptions_world w r w1 :
  Lib.getAllSubscriptions w = (r, w1) -> w1 = tick w.
Proof. rewrite lib_getAllSubscriptions_eq. now intros [= _ <-]. Qed.

(** An array that was read is an array of parsed values. *)
Lemma lib_getAllSubscriptions_array w l w1 :
  Lib.getAllSubscriptions w = (Ok (VArr l), w1) -> exists js, l = map of_json js.
Proof.
  rewrite lib_getAllSubscriptions_eq.
  destruct (KV w !! "subscriptions") as [[[|]|j]|]; intros [= Hj _].
  - subst l. now exists [].
  - apply of_json_array in Hj as (js & _ & ->). eauto.
  - subst l. now exists [].
Qed.

Lemma lib_getAllSubscriptions_written v w :
  Lib.getAllSubscriptions (lib_written v w)
  = (Ok (of_json (to_json Date_toISOString v)), tick (lib_written v w)).
Proof.
  rewrite lib_getAllSubscriptions_eq. cbn [KV lib_written].
  now rewrite lookup_insert_eq.
Qed.

Lemma lib_addSubscription_eq env c w l w1 :
  Lib.getAllSubscriptions w = (Ok (VArr l), w1) ->
  let r := hub_request subscribe c (API_SECRET env) (Lib.callbackUrl env) in
  Lib.addSubscription env c w =
    match Array_find (channelId_is c) l with
    | Throw e => (Throw e, w1)
    | Ok found =>
        if truthy found then (Ok tt, w1) else
        match fetch_outcome (ticks w1) r with
        | NetworkFailure => (Throw (PlatformError "fetch"), after_fetch r w1)
        | Response status =>
            if response_ok status
            then (Ok tt,
                  lib_written (VArr (l ++ [lib_entry (VStr c) (clock (S (ticks w1)))]))
                    (after_fetch r w1))
            else (Throw (Error "Failed to subscribe"), after_fetch r w1)
        end
    end.
Proof.
  intros Hget r. unfold Lib.addSubscription, bind at 1. rewrite Hget.
  unfold bind at 1, lift at 1, as_array. unfold bind at 1, lift at 1.
  destruct (Array_find (channelId_is c) l) as [found|e]; [|reflexivity].
  destruct (truthy found); [reflexivity|].
  unfold bind at 1. rewrite lib_requestSubscription_eq. fold r.
  destruct (fetch_outcome (ticks w1) r) as [|status]; [reflexivity|].
  destruct (response_ok status); reflexivity.
Qed.

Lemma lib_removeSubscription_eq env c w l w1 :
  Lib.getAllSubscriptions w = (Ok (VArr l), w1) ->
  let r := hub_request unsubscribe c (API_SECRET env) (Lib.callbackUrl env) in
  Lib.removeSubscription env c w =
    match Array_find (channelId_is c) l with
    | Throw e => (Throw e, w1)
    | Ok found =>
        if negb (truthy found) then (Ok tt, w1) else
        match fetch_outcome (ticks w1) r with
        | NetworkFailure => (Throw (PlatformError "fetch"), after_fetch r w1)
        | Response status =>
            if response_ok status
            then match Array_filter (channelId_is_not c) l with
                 | Throw e => (Throw e, after_fetch r w1)
                 | Ok updated => (Ok tt, lib_written (VArr updated) (after_fetch r w1))
                 end
            else (Throw (Error "Failed to unsubscribe"), after_fetch r w1)
        end
    end.
Proof.
  intros Hget r. unfold Lib.removeSubscription, bind at 1. rewrite Hget.
  unfold bind at 1, lift at 1, as_array. unfold bind at 1, lift at 1.
  destruct (Array_find (channelId_is c) l) as [found|e]; [|reflexivity].
  destruct (truthy found); [|reflexivity]. cbn [negb].
  unfold bind at 1. rewrite lib_requestSubscription_eq. fold r.
  destruct (fetch_outcome (ticks w1) r) as [|status]; [reflexivity|].
  destruct (response_ok status); [|reflexivity]. cbn [negb].
  unfold bind, lift.
  destruct (Array_filter (channelId_is_not c) l); reflexivity.
Qed.
End LibRegistry.

(** ** Adding and removing *)

Section AddRemove.
Context `{Platform}.


(** C9, as amended: when the hub answers the call with a status that is not
    a success status, [add] throws its failure to subscribe and [remove] its
    failure to unsubscribe, nothing is put in the store, and [listAll] reads
    after the call what it read before; the store itself is as it was,
    unless [add] of [utils.ts] found a corrupt text there, which it has
    deleted before it called the hub. *)
Theorem add_remove_hub_failure env c :
  (forall w l w1 status,
      Utils.getAllSubscriptions w = (Ok l, w1) ->
      utils_count c l = 0%nat ->
      fetch_outcome (ticks w1)
        (hub_request subscribe c (API_SECRET env)
           ("https://" +:+ APP_DOMAIN env +:+ "/callback")) = Response status ->
      response_ok status = false ->
      exists w2,
        Utils.addSubscription env c w = (Throw (Error "Failed to subscribe!"), w2)
        /\ fst (Utils.getAllSubscriptions w2) = Ok l
        /\ (KV w2 = KV w \/ KV w2 = delete Utils.SUBSCRIPTION_KV_KEY (KV w)))
  /\ (forall w l w1 status,
        Utils.getAllSubscriptions w = (Ok l, w1) ->
        utils_count c l <> 0%nat ->
        fetch_outcome (ticks w1)
          (hub_request unsubscribe c (API_SECRET env) (APP_DOMAIN env +:+ "/callback"))
        = Response status ->
        response_ok status = false ->
        exists w2,
          Utils.removeSubscription env c w = (Throw (Error "Failed to unsubscribe!"), w2)
          /\ KV w2 = KV w)
  /\ (forall w l w1 status,
        Lib.getAllSubscriptions w = (Ok (VArr l), w1) ->
        Array_find (channelId_is c) l = Ok VUndefined ->
        fetch_outcome (ticks w1)
          (hub_request subscribe c (API_SECRET env) (Lib.callbackUrl env))
        = Response status ->
        response_ok status = false ->
        exists w2,
          Lib.addSubscription env c w = (Throw (Error "Failed to subscribe"), w2)
          /\ KV w2 = KV w)
  /\ (forall w l w1 found status,
        Lib.getAllSubscriptions w = (Ok (VArr l), w1) ->
        Array_find (channelId_is c) l = Ok found ->
        found <> VUndefined ->
        fetch_outcome (ticks w1)
          (hub_request unsubscribe c (API_SECRET env) (Lib.callbackUrl env))
        = Response status ->
        response_ok status = false ->
        exists w2,
          Lib.removeSubscription env c w = (Throw (Error "Failed to unsubscribe"), w2)
          /\ KV w2 = KV w).
Proof.
  split; [|split; [|split]].
  - intros w l w1 status Hget Hcount Hhub Hok.
    rewrite (utils_addSubscription_eq env c w l w1 Hget).
    apply utils_find_channel_count in Hcount. rewrite Hcount, Hhub, Hok.
    eexists. split; [reflexivity|]. split.
    + rewrite (utils_getAllSubscriptions_store w1) by reflexivity.
      exact (utils_getAllSubscriptions_again _ _ _ Hget).
    + cbn [KV after_fetch].
      destruct (utils_getAllSubscriptions_world _ _ _ Hget) as [_ [HKV | (_ & _ & HKV)]];
        auto.
  - intros w l w1 status Hget Hcount Hhub Hok.
    rewrite (utils_removeSubscription_eq env c w l w1 Hget).
    destruct (Utils.find_channel c l) as [s|] eqn:Hfind.
    + rewrite Hhub, Hok. eexists. split; [reflexivity|].
      exact (proj1 (utils_getAllSubscriptions_found _ _ _ _ _ Hget Hfind)).
    + apply utils_find_channel_count in Hfind. contradiction.
  - intros w l w1 status Hget Hfind Hhub Hok.
    rewrite (lib_addSubscription_eq env c w l w1 Hget), Hfind. cbn [truthy].
    rewrite Hhub, Hok. eexists. split; [reflexivity|].
    now rewrite (lib_getAllSubscriptions_world _ _ _ Hget).
  - intros w l w1 found status Hget Hfind Hfound Hhub Hok.
    rewrite (lib_removeSubscription_eq env c w l w1 Hget), Hfind.
    rewrite (Array_find_truthy _ _ _ Hfind Hfound). cbn [negb].
    rewrite Hhub, Hok. eexists. split; [reflexivity|].
    now rewrite (lib_getAllSubscriptions_world _ _ _ Hget).
Qed.
End AddRemove.



Lemma add_remove_hub_failure_witness :
  let P := toy_platform VNull (fun _ => Response 500) in
  (exists w2,
      @Utils.addSubscription P toy_env "c4" (utils_world utils_three)
      = (Throw (Error "Failed to subscribe!"), w2)
      /\ fst (Utils.getAllSubscriptions w2)
         = Ok [{| Utils.channelId := "c1"; Utils.lastSubscribedAt := 100 |};
               {| Utils.channelId := "c2"; Utils.lastSubscribedAt := 200 |};
               {| Utils.channelId := "c3"; Utils.lastSubscribedAt := 300 |}]
      /\ (KV w2 = KV (utils_world utils_three)
          \/ KV w2 = delete Utils.SUBSCRIPTION_KV_KEY (KV (utils_world utils_three))))
  /\ (exists w2,
        @Utils.removeSubscription P toy_env "c1" (utils_world utils_three)
        = (Throw (Error "Failed to unsubscribe!"), w2)
        /\ KV w2 = KV (utils_world utils_three))
  /\ (exists w2,
        @Lib.addSubscription P toy_env "c4" (lib_world lib_three)
        = (Throw (Error "Failed to subscribe"), w2)
        /\ KV w2 = KV (lib_world lib_three))
  /\ (exists w2,
        @Lib.removeSubscription P toy_env "c1" (lib_world lib_three)
        = (Throw (Error "Failed to unsubscribe"), w2)
        /\ KV w2 = KV (lib_world lib_three)).
Proof.
  intros P.
  destruct (@add_remove_hub_failure P toy_env "c4") as (Hadd & _ & Hlibadd & _).
  destruct (@add_remove_hub_failure P toy_env "c1") as (_ & Hremove & _ & Hlibremove).
  split; [|split; [|split]].
  - apply (Hadd (utils_world utils_three) _ (tick (utils_world utils_three)) 500);
      reflexivity.
  - apply (Hremove (utils_world utils_three)
             [{| Utils.channelId := "c1"; Utils.lastSubscribedAt := 100 |};
              {| Utils.channelId := "c2"; Utils.lastSubscribedAt := 200 |};
              {| Utils.channelId := "c3"; Utils.lastSubscribedAt := 300 |}]
             (tick (utils_world utils_three)) 500);
      [reflexivity | vm_compute; lia | reflexivity | reflexivity].
  - apply (Hlibadd (lib_world lib_three)
             [VObj [("channelId", VStr "c1"); ("lastSubscribed", VStr "100")];
              VObj [("channelId", VStr "c2"); ("lastSubscribed", VStr "200")];
              VObj [("channelId", VStr "c3"); ("lastSubscribed", VStr "300")]]
             (tick (lib_world lib_three)) 500); reflexivity.
  - apply (Hlibremove (lib_world lib_three)
             [VObj [("channelId", VStr "c1"); ("lastSubscribed", VStr "100")];
              VObj [("channelId", VStr "c2"); ("lastSubscribed", VStr "200")];
              VObj [("channelId", VStr "c3"); ("lastSubscribed", VStr "300")]]
             (tick (lib_world lib_three))
             (VObj [("channelId", VStr "c1"); ("lastSubscribed", VStr "100")]) 500);
      [reflexivity | reflexivity | discriminate | reflexivity | reflexivity].
Defined.

(** C9 as stated fails: with the text [{}] in the store and a hub that
    answers 500, [add] of [utils.ts] throws its failure to subscribe and the
    store is not as it was: the text is gone. *)
Lemma utils_addSubscription_deletes_corrupt :
  let P := toy_platform VNull (fun _ => Response 500) in
  let w := utils_world (Json (Jobj [])) in
  fst (@Utils.addSubscription P toy_env "c1" w) = Throw (Error "Failed to subscribe!")
  /\ KV w !! Utils.SUBSCRIPTION_KV_KEY = Some (Json (Jobj []))
  /\ KV (snd (@Utils.addSubscription P toy_env "c1" w)) !! Utils.SUBSCRIPTION_KV_KEY = None.
Proof. repeat split. Qed.

(** C5, on [lib.ts]: a stored text that is JSON and no list of
    subscriptions is returned as it is, and stays in the store; and in both
    files a stored text that is not JSON makes [listAll] throw the error of
    [JSON.parse]. *)
Theorem lib_getAllSubscriptions_unvalidated :
  let w := lib_world (Json (Jobj [("oops", Jbool true)])) in
  v_array Utils.subscription (of_json (Jobj [("oops", Jbool true)])) = None
  /\ Lib.getAllSubscriptions w = (Ok (VObj [("oops", VBool true)]), tick w)
  /\ KV (snd (Lib.getAllSubscriptions w)) !! "subscriptions"
     = Some (Json (Jobj [("oops", Jbool true)]))
  /\ fst (Lib.getAllSubscriptions (lib_world (NotJson true))) = Throw SyntaxError
  /\ fst (Utils.getAllSubscriptions (utils_world (NotJson true))) = Throw SyntaxError.
Proof. repeat split. Qed.

(** C10, on [utils.ts]: [remove] hands the hub the callback URL without its
    scheme, [add] with it; in [lib.ts] both hand it the same. *)
Theorem utils_removeSubscription_callback_url :
  let P := toy_platform VNull (fun _ => Response 204) in
  map hub_callback
    (sent (snd (@Utils.removeSubscription P toy_env "c1" (utils_world utils_three))))
  = [Some "example.org/callback"]
  /\ map hub_callback
       (sent (snd (@Utils.addSubscription P toy_env "c4" (utils_world utils_three))))
     = [Some "https://example.org/callback"]
  /\ map hub_callback
       (sent (snd (@Lib.removeSubscription P toy_env "c1" (lib_world lib_three))))
     = [Some "https://example.org/callback"]
  /\ map hub_callback
       (sent (snd (@Lib.addSubscription P toy_env "c4" (lib_world lib_three))))
     = [Some "https://example.org/callback"].
Proof. repeat split. Qed.

(** C6, on [utils.ts]: a pass over three subscriptions whose second hub
    call fails ends, posts one report, and writes the three subscriptions
    back with the times they had ([100], [200], [300]), though the clock
    shows [1000] and more; the same pass of [lib.ts] writes the times of the
    pass. *)
Theorem utils_renew_keeps_times :
  let P := toy_platform VNull (fails_at 2) in
  let w := snd (@Utils.renewSubscriptionCronWorker P toy_env (utils_world utils_three)) in
  let w' := snd (@Lib.renewAll P toy_env (lib_world lib_three)) in
  fst (@Utils.renewSubscriptionCronWorker P toy_env (utils_world utils_three)) = Ok tt
  /\ KV w !! Utils.SUBSCRIPTION_KV_KEY = Some utils_three
  /\ omap request_content (sent w) = ["Failed to renew subscription for c2"]
  /\ @clock P 0 = 0 /\ @clock P 1 = 1000
  /\ fst (@Lib.renewAll P toy_env (lib_world lib_three)) = Ok tt
  /\ KV w' !! "subscriptions"
     = Some (Json (Jarr [Jobj [("channelId", Jstr "c1"); ("lastSubscribed", Jstr "2000")];
                         Jobj [("channelId", Jstr "c2"); ("lastSubscribed", Jstr "3000")];
                         Jobj [("channelId", Jstr "c3"); ("lastSubscribed", Jstr "4000")]]))
  /\ omap request_content (sent w') = ["Failed to renew subscription for c2"].
Proof. repeat split. Qed.

(** ** Renewal *)

Section Renewal.
Context `{Platform}.

(** The network answers every call. *)
Hypothesis network_up : forall n r, fetch_outcome n r <> NetworkFailure.

(** Closes a step of a loop: both sides are the same list, trace and tick
    count, up to the bracketing of [++]. *)
Ltac loop_step :=
  unfold after_fetch; cbn [KV sent ticks length];
  rewrite <- ?app_assoc; cbn [app];
  f_equal; f_equal; lia.

Lemma world_eta w : {| KV := KV w; sent := sent w ++ []; ticks := ticks w + 0 |} = w.
Proof. destruct w; simpl. now rewrite app_nil_r, Nat.add_0_r. Qed.

(** A report that is not awaited is sent, and that is all. *)
Lemma utils_discordLog_detached env message w :
  detached (Utils.discordLog env message) w =
    (Ok tt, {| KV := KV w;
               sent := sent w ++ [discord_request (DISCORD_WEBHOOK_URL env) message];
               ticks := ticks w |}).
Proof.
  unfold detached, Utils.discordLog, bind. rewrite fetch_eq.
  destruct (fetch_outcome _ _); reflexivity.
Qed.

Lemma lib_discordLog_detached webhookUrl message w :
  detached (Lib.discordLog webhookUrl message) w =
    (Ok tt, {| KV := KV w;
               sent := sent w ++ [discord_request webhookUrl message];
               ticks := ticks w |}).
Proof. unfold detached, Lib.discordLog. rewrite fetch_eq. reflexivity. Qed.

(** The loop of [utils.ts] ends, keeps every item as it is, and sends what
    [utils_renew_trace] says: a failed item costs a report and nothing
    else. *)
Lemma utils_renew_loop_eq env todo : forall acc w,
  Utils.renew_loop env todo acc w =
    (Ok (acc ++ todo),
     {| KV := KV w; sent := sent w ++ utils_renew_trace env (ticks w) todo;
        ticks := ticks w + length todo |}).
Proof.
  induction todo as [|s rest IH]; intros acc w; cbn [Utils.renew_loop].
  - unfold ret. now rewrite app_nil_r, world_eta.
  - unfold bind at 1. rewrite utils_requestSubscription_eq.
    set (r := hub_request _ _ _ _).
    cbn [utils_renew_trace]. fold r.
    destruct (fetch_outcome (ticks w) r) as [|status] eqn:Hr;
      [exfalso; exact (network_up _ _ Hr)|].
    destruct (response_ok status); cbn [negb]; unfold bind at 1.
    + unfold ret at 1. rewrite IH. loop_step.
    + rewrite utils_discordLog_detached. rewrite IH. loop_step.
Qed.

(** The renewal of [utils.ts] writes back the list it read; it is read
    again as it was when [JSON.stringify] keeps its times. *)
Lemma utils_renew_eq env w l w1 :
  Utils.getAllSubscriptions w = (Ok l, w1) ->
  exists w2,
    Utils.renewSubscriptionCronWorker env w = (Ok tt, w2)
    /\ KV w2 = <[Utils.SUBSCRIPTION_KV_KEY :=
                   JSON_stringify (VArr (map Utils.Subscription_value l))]> (KV w1)
    /\ sent w2 = sent w ++ utils_renew_trace env (ticks w1) l
    /\ (times_kept l = true -> fst (Utils.getAllSubscriptions w2) = Ok l).
Proof.
  intros Hget. unfold Utils.renewSubscriptionCronWorker, bind at 1. rewrite Hget.
  unfold bind at 1. rewrite utils_renew_loop_eq. cbn [app].
  eexists. split; [reflexivity|]. cbn [KV sent ticks tick].
  split; [reflexivity|].
  split; [now rewrite (proj1 (utils_getAllSubscriptions_world _ _ _ Hget))|].
  intros Hkept.
  rewrite utils_getAllSubscriptions_eq. unfold KV_put. cbn [KV tick snd].
  rewrite lookup_insert_eq.
  unfold JSON_stringify. now rewrite (subscription_roundtrip l Hkept).
Qed.

(** The loop of [lib.ts] ends, pushes for every item an entry with the
    time of the clock, and sends what [lib_renew_trace] says. *)
Lemma lib_renew_loop_eq env todo : forall acc w,
  Forall (fun s => s <> VUndefined /\ s <> VNull
                   /\ js_String (lib_channelId s) = Ok (lib_topic s)) todo ->
  Lib.renew_loop env todo acc w =
    (Ok (acc ++ lib_renewed (ticks w) todo),
     {| KV := KV w; sent := sent w ++ lib_renew_trace env (ticks w) todo;
        ticks := ticks w + length todo |}).
Proof.
  induction todo as [|s rest IH]; intros acc w Hall; cbn [Lib.renew_loop].
  - unfold ret. cbn [lib_renewed lib_renew_trace length]. now rewrite app_nil_r, world_eta.
  - inversion Hall as [|? ? (Hu & Hn & Htopic) Hrest]; subst.
    assert (Hget : js_get "channelId" s = Ok (lib_channelId s))
      by (destruct s; try reflexivity; contradiction).
    unfold bind at 1, lift at 1. rewrite Hget. cbv beta iota.
    unfold bind at 1, lift at 1. rewrite Htopic. cbv beta iota.
    unfold bind at 1. rewrite lib_requestSubscription_eq.
    set (r := hub_request _ _ _ _).
    cbn [lib_renew_trace lib_renewed]. fold r.
    destruct (fetch_outcome (ticks w) r) as [|status] eqn:Hr;
      [exfalso; exact (network_up _ _ Hr)|].
    destruct (response_ok status); cbn [negb]; unfold bind at 1.
    + unfold ret at 1. unfold bind at 1, Date_now.
      rewrite (IH _ _ Hrest). unfold lib_entry. loop_step.
    + unfold bind at 1, lift at 1.
      rewrite lib_discordLog_detached.
      unfold bind at 1, Date_now.
      rewrite (IH _ _ Hrest). unfold lib_entry. loop_step.
Qed.

(** C6, for [lib.ts]: over an array of entries whose channel ids convert to
    strings the pass ends, whatever the hub answers; it writes one entry per
    item, each with the time the clock showed in the pass, and has posted
    one report per failed item. *)
Lemma lib_renewAll_eq env w l w1 :
  Lib.getAllSubscriptions w = (Ok (VArr l), w1) ->
  Forall (fun s => s <> VUndefined /\ s <> VNull
                   /\ js_String (lib_channelId s) = Ok (lib_topic s)) l ->
  exists w2,
    Lib.renewAll env w = (Ok tt, w2)
    /\ KV w2 = <["subscriptions" := JSON_stringify (VArr (lib_renewed (ticks w1) l))]> (KV w)
    /\ sent w2 = sent w ++ lib_renew_trace env (ticks w1) l.
Proof.
  intros Hget Hall. unfold Lib.renewAll, bind at 1. rewrite Hget.
  unfold bind at 1, lift at 1, iterate.
  unfold bind at 1. rewrite (lib_renew_loop_eq _ _ _ _ Hall). cbn [app].
  eexists. split; [reflexivity|]. cbn [KV sent ticks tick].
  rewrite (lib_getAllSubscriptions_world _ _ _ Hget). split; reflexivity.
Qed.
End Renewal.

(** ** Dates in a parsed feed *)

(** The entry schema of [lib.ts] wants [Date] objects: an entry whose
    [published] is a string, as it is in what an XML parser returns, has
    issues. *)
Lemma entrySchema_string_date fs s :
  assoc "published" fs = Some (VStr s) -> Lib.entrySchema (VObj fs) = None.
Proof.
  intros Hpublished.
  assert (Hdate : v_entry "published" v_date (VObj fs) = None)
    by (unfold v_entry; cbn [own_property]; now rewrite Hpublished).
  unfold Lib.entrySchema, v_object. cbn [is_object]. rewrite Hdate.
  repeat (match goal with
          | |- context [v_entry ?k ?item ?input] => destruct (v_entry k item input)
          end; cbn [mbind option_bind]; try reflexivity).
Qed.

(** The entry of the example of the specification, with its dates as the
    parser gives them, is not classified as a video by [lib.ts]. *)
Lemma callbackSchema_parsed_example :
  Lib.callbackSchema (document (parsed_entry link_node)) = None.
Proof. reflexivity. Qed.

(** C3, on both files, for the example of the specification pushed with a
    header that verifies.  [lib.ts] makes the watch URL from the video id,
    but never gets there: its schema has issues with the entry as the
    parser returns it (the dates are strings), the push is answered [OK]
    and nothing is sent.  The route of [utils.ts] posts the video, and the
    line of the link says that there is none: it reads the attribute of the
    [link] node, which the parser leaves out, and never makes a link from
    the video id. *)
Theorem example_feed_no_watch_url :
  let P := toy_platform (document (parsed_entry link_node)) (fun _ => Response 204) in
  fst (@Lib.verifyNotificationSignature P "s3cret" example_signature example_xml empty_world)
  = Ok true
  /\ Lib.callbackSchema (document (parsed_entry link_node)) = None
  /\ @Lib.post_callback P toy_env example_xml (Some example_signature) empty_world
     = (Ok (text_response 200 "OK"), empty_world)
  /\ fst (@Utils.app_post_callback P toy_env example_xml (Some example_signature) empty_world)
     = Ok (text_response 200 "OK")
  /\ map request_content
       (sent (snd (@Utils.app_post_callback P toy_env example_xml (Some example_signature)
                     empty_world)))
     = [Some (join LF ["New video from [A](http://a)";
                       "**T**";
                       "*Link unavailable*";
                       EmptyString;
                       "Published at <t:1704067200:f>";
                       "Updated at <t:1704153600:f>"])].
Proof. repeat split. Qed.

(** * More of the code *)

(** ** Hexadecimal digests *)

Section Hex.
Lemma unhex_hex_of_byte b rest :
  unhex (hex_of_byte b +:+ rest) =
    match unhex rest with
    | Some bs => Some (b :: bs)
    | None => None
    end.
Proof. destruct b; cbn; destruct (unhex rest); reflexivity. Qed.

Lemma hex_of_byte_length b : String.length (hex_of_byte b) = 2%nat.
Proof. destruct b; reflexivity. Qed.

Lemma string_length_app s1 s2 :
  String.length (s1 +:+ s2) = (String.length s1 + String.length s2)%nat.
Proof. induction s1 as [|a s1 IH]; cbn; [reflexivity | now rewrite IH]. Qed.

Lemma unhex_hex_of_bytes bs : unhex (hex_of_bytes bs) = Some bs.
Proof.
  unfold hex_of_bytes. induction bs as [|b bs IH]; [reflexivity|].
  rewrite map_cons, concat_empty_cons, unhex_hex_of_byte, IH. reflexivity.
Qed.

Lemma hex_of_bytes_inj a b : hex_of_bytes a = hex_of_bytes b -> a = b.
Proof.
  intros Heq. pose proof (unhex_hex_of_bytes a) as Ha.
  rewrite Heq, unhex_hex_of_bytes in Ha. congruence.
Qed.

(** X1: the hexadecimal text of a digest has two characters per byte (the
    padding to two digits), reads back as the bytes it was made from, and
    so is the same for two digests only when they are the same; it has no
    upper-case letter and no equals sign. *)
Theorem hex_of_bytes_faithful (a b : list byte) :
  String.length (hex_of_bytes a) = (2 * length a)%nat
  /\ unhex (hex_of_bytes a) = Some a
  /\ (hex_of_bytes a = hex_of_bytes b <-> a = b)
  /\ toLowerCase (hex_of_bytes a) = hex_of_bytes a
  /\ has_char "="%char (hex_of_bytes a) = false.
Proof.
  split; [|split; [|split; [|split]]].
  - unfold hex_of_bytes. induction a as [|x a IH]; [reflexivity|].
    rewrite map_cons, concat_empty_cons, string_length_app, hex_of_byte_length, IH.
    cbn [length]. lia.
  - apply unhex_hex_of_bytes.
  - split; [apply hex_of_bytes_inj | now intros ->].
  - apply hex_of_bytes_lower.
  - apply hex_of_bytes_no_eq.
Qed.
End Hex.

(** ** Headers *)

Section Headers.
Context `{Platform}.

Lemma split_at_sep c a b :
  has_char c a = false -> split c (a +:+ String c b) = a :: split c b.
Proof.
  induction a as [|x a IH]; cbn [append split has_char].
  - intros _. now rewrite Ascii.eqb_refl.
  - intros Hc. apply orb_false_iff in Hc as [Hx Ha].
    rewrite Hx, (IH Ha). reflexivity.
Qed.

Lemma ascii_upper_lower c : ascii_upper (ascii_lower c) = ascii_upper c.
Proof. destruct c as [[] [] [] [] [] [] [] []]; reflexivity. Qed.

Lemma toUpperCase_toLowerCase s : toUpperCase (toLowerCase s) = toUpperCase s.
Proof.
  unfold toUpperCase, toLowerCase.
  induction s as [|a s IH]; cbn; [reflexivity | now rewrite ascii_upper_lower, IH].
Qed.

(** What the check of [lib.ts] comes to on a header with an algorithm, a
    digest and, maybe, more after a second equals sign. *)
Lemma lib_verify_parts secret algo D more xml w :
  has_char "="%char algo = false ->
  has_char "="%char D = false ->
  more = EmptyString \/ (exists junk, more = String "=" junk) ->
  Lib.verifyNotificationSignature secret (algo +:+ String "=" (D +:+ more)) xml w =
    match crypto_subtle_importKey (replace "SHA" "SHA-" (toUpperCase algo))
            (TextEncoder_encode secret) with
    | Throw e => (Throw e, w)
    | Ok key =>
        match crypto_subtle_sign key (TextEncoder_encode xml) with
        | Throw e => (Throw e, w)
        | Ok digest => (Ok (String.eqb (hex_of_bytes digest) (toLowerCase D)), w)
        end
    end.
Proof.
  intros Halgo HD Hmore. unfold Lib.verifyNotificationSignature.
  rewrite (split_at_sep _ _ _ Halgo).
  assert (Hparts : exists rest, split "="%char (D +:+ more) = D :: rest).
  { destruct Hmore as [-> | [junk ->]].
    - rewrite append_empty_r, (split_no_sep _ _ HD). eauto.
    - rewrite (split_at_sep _ _ _ HD). eauto. }
  destruct Hparts as [rest ->]. cbn [lookup list_lookup default id].
  unfold bind, lift, ret.
  destruct (crypto_subtle_importKey _ _) as [key|e]; [|reflexivity].
  destruct (crypto_subtle_sign _ _) as [digest|e]; [|reflexivity].
  now rewrite hex_of_bytes_lower.
Qed.

(** X2: the check of [lib.ts] reads the algorithm name and the digest of
    the header without regard to the case of their letters, and does not
    look at what follows a second equals sign. *)
Theorem lib_verify_header_reading secret algo algo' D D' junk xml w :
  has_char "="%char algo = false ->
  has_char "="%char D = false ->
  toLowerCase algo' = toLowerCase algo ->
  toLowerCase D' = toLowerCase D ->
  Lib.verifyNotificationSignature secret (algo' +:+ "=" +:+ D') xml w
  = Lib.verifyNotificationSignature secret (algo +:+ "=" +:+ D) xml w
  /\ Lib.verifyNotificationSignature secret (algo +:+ "=" +:+ D +:+ "=" +:+ junk) xml w
     = Lib.verifyNotificationSignature secret (algo +:+ "=" +:+ D) xml w.
Proof.
  intros Halgo HD Halgo' HD'.
  assert (Ha' : has_char "="%char algo' = false)
    by now rewrite <- has_eq_toLowerCase, Halgo', has_eq_toLowerCase.
  assert (Hd' : has_char "="%char D' = false)
    by now rewrite <- has_eq_toLowerCase, HD', has_eq_toLowerCase.
  pose proof (lib_verify_parts secret algo D EmptyString xml w Halgo HD
                (or_introl eq_refl)) as Hplain.
  pose proof (lib_verify_parts secret algo' D' EmptyString xml w Ha' Hd'
                (or_introl eq_refl)) as Hother.
  pose proof (lib_verify_parts secret algo D (String "=" junk) xml w Halgo HD
                (or_intror (ex_intro _ junk eq_refl))) as Hjunk.
  rewrite append_empty_r in Hplain, Hother.
  change (algo +:+ "=" +:+ D) with (algo +:+ String "=" D).
  change (algo' +:+ "=" +:+ D') with (algo' +:+ String "=" D').
  change (algo +:+ "=" +:+ D +:+ "=" +:+ junk) with (algo +:+ String "=" (D +:+ String "=" junk)).
  rewrite Hplain, Hother, Hjunk. split; [|reflexivity].
  rewrite HD'. rewrite <- (toUpperCase_toLowerCase algo'), Halgo', toUpperCase_toLowerCase.
  reflexivity.
Qed.

(** X3: a header without an equals sign is never taken: the check of
    [lib.ts] rejects, the check of [utils.ts] returns [false] or rejects. *)
Theorem verify_header_without_equals secret env signature xml w :
  has_char "="%char signature = false ->
  (exists e, Lib.verifyNotificationSignature secret signature xml w = (Throw e, w))
  /\ (Utils.verifyNotificationSignature env signature xml w = (Ok false, w)
      \/ exists e, Utils.verifyNotificationSignature env signature xml w = (Throw e, w)).
Proof.
  intros Hno. split.
  - unfold Lib.verifyNotificationSignature. rewrite (split_no_sep _ _ Hno).
    cbn [lookup list_lookup]. unfold bind, lift, throw.
    destruct (crypto_subtle_importKey _ _) as [key|e]; [|eauto].
    destruct (crypto_subtle_sign _ _) as [digest|e]; eauto.
  - unfold Utils.verifyNotificationSignature. rewrite (split_no_sep _ _ Hno).
    cbn [map lookup list_lookup]. unfold bind, lift, ret.
    destruct (crypto_subtle_importKey _ _) as [key|e]; [|eauto].
    destruct (crypto_subtle_sign _ _) as [digest|e]; eauto.
Qed.

(** X4: when a check returns [true], the header has a digest part, the
    platform has made a key for the hash the header names and signed the
    body with it, and the digest part, in lower case and read as
    hexadecimal, is that signature, byte for byte.  In both files. *)
Theorem verify_true_sound env signature xml w w' :
  (Lib.verifyNotificationSignature (API_SECRET env) signature xml w = (Ok true, w') ->
   w' = w
   /\ exists key digest m,
       split "="%char signature !! 1%nat = Some m
       /\ crypto_subtle_importKey (lib_hash_name signature)
            (TextEncoder_encode (API_SECRET env)) = Ok key
       /\ crypto_subtle_sign key (TextEncoder_encode xml) = Ok digest
       /\ unhex (toLowerCase m) = Some digest)
  /\ (Utils.verifyNotificationSignature env signature xml w = (Ok true, w') ->
      w' = w
      /\ exists key digest m,
          split "="%char signature !! 1%nat = Some m
          /\ crypto_subtle_importKey (utils_hash_name signature)
               (TextEncoder_encode (API_SECRET env)) = Ok key
          /\ crypto_subtle_sign key (TextEncoder_encode xml) = Ok digest
          /\ unhex (toLowerCase m) = Some digest).
Proof.
  split.
  - unfold Lib.verifyNotificationSignature, bind, lift, ret, throw.
    fold (lib_hash_name signature).
    destruct (crypto_subtle_importKey _ _) as [key|e] eqn:Hkey; [|discriminate].
    destruct (crypto_subtle_sign _ _) as [digest|e] eqn:Hsign; [|discriminate].
    destruct (split "="%char signature !! 1%nat) as [m|] eqn:Hm; [|discriminate].
    intros [= Heq <-]. split; [reflexivity|].
    apply String.eqb_eq in Heq. rewrite hex_of_bytes_lower in Heq.
    exists key, digest, m.
    repeat split; auto. rewrite <- Heq. apply unhex_hex_of_bytes.
  - unfold Utils.verifyNotificationSignature, bind, lift, ret.
    fold (utils_hash_name signature).
    destruct (crypto_subtle_importKey _ _) as [key|e] eqn:Hkey; [|discriminate].
    destruct (crypto_subtle_sign _ _) as [digest|e] eqn:Hsign; [|discriminate].
    rewrite list_lookup_fmap.
    destruct (split "="%char signature !! 1%nat) as [m|] eqn:Hm; [|discriminate].
    cbn [fmap option_fmap option_map]. intros [= Heq <-]. split; [reflexivity|].
    apply String.eqb_eq in Heq. rewrite hex_of_bytes_lower in Heq.
    exists key, digest, m.
    repeat split; auto. rewrite <- Heq. apply unhex_hex_of_bytes.
Qed.
End Headers.

Lemma lib_verify_header_reading_witness :
  let P := toy_platform VNull (fun _ => Response 204) in
  @Lib.verifyNotificationSignature P "s3cret" ("SHA256" +:+ "=" +:+ toLowerCase toy_D) "body"
    empty_world
  = @Lib.verifyNotificationSignature P "s3cret" ("sha256" +:+ "=" +:+ toy_D) "body" empty_world
  /\ @Lib.verifyNotificationSignature P "s3cret" ("sha256" +:+ "=" +:+ toy_D +:+ "=" +:+ "beef")
       "body" empty_world
     = @Lib.verifyNotificationSignature P "s3cret" ("sha256" +:+ "=" +:+ toy_D) "body"
         empty_world.
Proof.
  intros P.
  apply (@lib_verify_header_reading P "s3cret" "sha256" "SHA256" toy_D (toLowerCase toy_D)
           "beef" "body" empty_world); reflexivity.
Defined.

Lemma verify_header_without_equals_witness :
  let P := toy_platform VNull (fun _ => Response 204) in
  (exists e, @Lib.verifyNotificationSignature P "s3cret" "sha256" "body" empty_world
             = (Throw e, empty_world))
  /\ (@Utils.verifyNotificationSignature P toy_env "sha256" "body" empty_world
      = (Ok false, empty_world)
      \/ exists e, @Utils.verifyNotificationSignature P toy_env "sha256" "body" empty_world
                   = (Throw e, empty_world)).
Proof.
  intros P.
  apply (@verify_header_without_equals P "s3cret" toy_env "sha256" "body" empty_world).
  reflexivity.
Defined.

Lemma verify_true_sound_witness :
  let P := toy_platform VNull (fun _ => Response 204) in
  (exists key digest m,
      split "="%char ("sha256=" +:+ toy_D) !! 1%nat = Some m
      /\ @crypto_subtle_importKey P (lib_hash_name ("sha256=" +:+ toy_D))
           (@TextEncoder_encode P "s3cret") = Ok key
      /\ @crypto_subtle_sign P key (@TextEncoder_encode P "body") = Ok digest
      /\ unhex (toLowerCase m) = Some digest)
  /\ (exists key digest m,
        split "="%char ("sha-256=" +:+ toy_D) !! 1%nat = Some m
        /\ @crypto_subtle_importKey P (utils_hash_name ("sha-256=" +:+ toy_D))
             (@TextEncoder_encode P "s3cret") = Ok key
        /\ @crypto_subtle_sign P key (@TextEncoder_encode P "body") = Ok digest
        /\ unhex (toLowerCase m) = Some digest).
Proof.
  intros P. split.
  - exact (proj2 (proj1 (@verify_true_sound P toy_env ("sha256=" +:+ toy_D) "body"
                           empty_world empty_world) eq_refl)).
  - exact (proj2 (proj2 (@verify_true_sound P toy_env ("sha-256=" +:+ toy_D) "body"
                           empty_world empty_world) eq_refl)).
Defined.

(** ** The registry of [utils.ts], further *)

Section UtilsRegistryMore.
Context `{Platform}.


(** A list with an entry in it is read again as it is, from the same
    store. *)
Lemma utils_getAllSubscriptions_found_again w l w1 c s :
  Utils.getAllSubscriptions w = (Ok l, w1) ->
  Utils.find_channel c l = Some s ->
  Utils.getAllSubscriptions w1 = (Ok l, tick w1).
Proof.
  intros Hget Hfind. revert Hget. rewrite !utils_getAllSubscriptions_eq.
  destruct (KV w !! Utils.SUBSCRIPTION_KV_KEY) as [[[|]|j]|] eqn:Hkey;
    try (intros [= <- <-]; discriminate Hfind).
  destruct (v_array Utils.subscription (of_json j)) eqn:Hv; intros [= <- <-].
  - cbn [KV tick]. now rewrite Hkey, Hv.
  - discriminate Hfind.
Qed.

Lemma utils_find_channel_app c l s :
  Utils.channelId s = c -> exists s', Utils.find_channel c (l ++ [s]) = Some s'.
Proof.
  intros Hs. unfold Utils.find_channel.
  induction l as [|x l IH]; cbn.
  - rewrite Hs, String.eqb_refl. eauto.
  - destruct (String.eqb (Utils.channelId x) c); eauto.
Qed.

Lemma utils_find_channel_elem c l :
  Utils.find_channel c l = None <-> c ∉ utils_channels l.
Proof.
  unfold Utils.find_channel, utils_channels.
  induction l as [|x l IH]; cbn.
  - split; [intros _; apply not_elem_of_nil | reflexivity].
  - rewrite not_elem_of_cons.
    destruct (String.eqb_spec (Utils.channelId x) c) as [Heq|Hne].
    + split; [discriminate | intros [Hc _]; congruence].
    + rewrite IH. split; [intros Hl; split; [congruence | exact Hl] | intros [_ Hl]; exact Hl].
Qed.

Lemma utils_channels_filter c l :
  NoDup (utils_channels l) ->
  NoDup (utils_channels (List.filter (fun s => negb (String.eqb (Utils.channelId s) c)) l))
  /\ (c ∉ utils_channels (List.filter (fun s => negb (String.eqb (Utils.channelId s) c)) l))
  /\ (forall x,
        (x ∈ utils_channels (List.filter (fun s => negb (String.eqb (Utils.channelId s) c)) l))
        -> (x ∈ utils_channels l)).
Proof.
  unfold utils_channels.
  induction l as [|s l IH]; cbn [List.filter map].
  - intros _. split; [constructor|]. split; [apply not_elem_of_nil | auto].
  - rewrite NoDup_cons. intros [Hs Hl]. destruct (IH Hl) as (Hnd & Hc & Hsub).
    destruct (String.eqb_spec (Utils.channelId s) c) as [Heq|Hne]; cbn [negb map].
    + split; [exact Hnd|]. split; [exact Hc|]. intros x Hx. right. auto.
    + split; [|split].
      * apply NoDup_cons. split; [intros Hin; apply Hs; auto | exact Hnd].
      * rewrite not_elem_of_cons. split; [congruence | exact Hc].
      * intros x Hx. apply elem_of_cons in Hx as [-> | Hx]; [left | right; auto].
Qed.

(** The loop of the renewal, whatever the network does: it leaves the store
    alone, and when it ends it has kept every item. *)
Lemma utils_renew_loop_general env todo : forall acc w,
  exists r w',
    Utils.renew_loop env todo acc w = (r, w')
    /\ KV w' = KV w
    /\ (forall l, r = Ok l -> l = acc ++ todo).
Proof.
  induction todo as [|s rest IH]; intros acc w; cbn [Utils.renew_loop].
  - exists (Ok acc), w. split; [reflexivity|]. split; [reflexivity|].
    intros l [= <-]. now rewrite app_nil_r.
  - unfold bind at 1. rewrite utils_requestSubscription_eq.
    destruct (fetch_outcome _ _) as [|status].
    { eexists _, _. split; [reflexivity|]. split; [reflexivity | discriminate]. }
    destruct (response_ok status); cbn [negb]; unfold bind at 1.
    + unfold ret at 1.
      match goal with
      | |- context [Utils.renew_loop env rest ?a ?w0] =>
          destruct (IH a w0) as (r & w' & -> & HKV & Hl)
      end.
      exists r, w'. split; [reflexivity|]. split; [exact HKV|].
      intros l Hr. rewrite (Hl l Hr), <- app_assoc. reflexivity.
    + rewrite utils_discordLog_detached.
      match goal with
      | |- context [Utils.renew_loop env rest ?a ?w0] =>
          destruct (IH a w0) as (r & w' & -> & HKV & Hl)
      end.
      exists r, w'. split; [reflexivity|]. split; [exact HKV|].
      intros l Hr. rewrite (Hl l Hr), <- app_assoc. reflexivity.
Qed.

(** X5: [listAll] of [utils.ts] a second time gives what it gave the first
    time and changes nothing: a corrupt text is deleted by the first call,
    and after it the store is one that is read as it is. *)
Theorem utils_listAll_twice w :
  let w1 := snd (Utils.getAllSubscriptions w) in
  fst (Utils.getAllSubscriptions w1) = fst (Utils.getAllSubscriptions w)
  /\ KV (snd (Utils.getAllSubscriptions w1)) = KV w1
  /\ sent (snd (Utils.getAllSubscriptions w1)) = sent w.
Proof.
  cbn zeta. rewrite !utils_getAllSubscriptions_eq.
  destruct (KV w !! Utils.SUBSCRIPTION_KV_KEY) as [[[|]|j]|] eqn:Hkey; cbn [snd KV tick].
  - rewrite Hkey. repeat split.
  - rewrite Hkey. repeat split.
  - destruct (v_array Utils.subscription (of_json j)) eqn:Hv; cbn [snd KV tick].
    + rewrite Hkey, Hv. repeat split.
    + rewrite lookup_delete_eq. repeat split.
  - rewrite Hkey. repeat split.
Qed.

(** X6: one element the schema has issues with, among any number of good
    ones, and [listAll] of [utils.ts] gives the empty list and deletes the
    whole text: the good entries are gone with the bad one. *)
Theorem utils_listAll_one_bad_entry w js j :
  KV w !! Utils.SUBSCRIPTION_KV_KEY = Some (Json (Jarr js)) ->
  j ∈ js ->
  Utils.subscription (of_json j) = None ->
  exists w1,
    Utils.getAllSubscriptions w = (Ok [], w1)
    /\ KV w1 !! Utils.SUBSCRIPTION_KV_KEY = None
    /\ fst (Utils.getAllSubscriptions w1) = Ok [].
Proof.
  intros Hkey Hin Hbad.
  assert (Hv : v_array Utils.subscription (of_json (Jarr js)) = None).
  { cbn [of_json v_array]. apply mapM_None. apply Exists_exists.
    exists (of_json j). split; [|exact Hbad].
    apply list_elem_of_In, in_map, list_elem_of_In. exact Hin. }
  destruct (utils_getAllSubscriptions_corrupt w (Jarr js) Hkey Hv) as (w1 & Hget & _ & Hnone & Hagain).
  eauto.
Qed.

(** X7: after an [add] of [utils.ts] that returned, a second [add] of the
    same channel finds the channel: it returns without a call to the hub
    and without a write.  The times of the stored list are numbers
    [JSON.stringify] writes as they are. *)
Theorem utils_addSubscription_twice env c w l w1 w2 :
  Utils.getAllSubscriptions w = (Ok l, w1) ->
  times_kept l = true ->
  Utils.addSubscription env c w = (Ok tt, w2) ->
  exists w3,
    Utils.addSubscription env c w2 = (Ok tt, w3)
    /\ KV w3 = KV w2 /\ sent w3 = sent w2.
Proof.
  intros Hget Hkept. rewrite (utils_addSubscription_eq env c w l w1 Hget).
  destruct (Utils.find_channel c l) as [s|] eqn:Hfind.
  - intros [= <-].
    rewrite (utils_addSubscription_eq env c w1 l (tick w1)
               (utils_getAllSubscriptions_found_again _ _ _ _ _ Hget Hfind)), Hfind.
    eexists. repeat split.
  - destruct (fetch_outcome _ _) as [|status]; [discriminate|].
    destruct (response_ok status); [|discriminate]. intros [= <-].
    match goal with
    | |- context [utils_written ?l' ?w0] =>
        assert (Hkept' : times_kept l' = true)
          by (rewrite times_kept_app, Hkept; reflexivity);
        rewrite (utils_addSubscription_eq env c (utils_written l' w0) l'
                   (tick (utils_written l' w0))
                   (utils_getAllSubscriptions_written l' w0 Hkept'));
        destruct (utils_find_channel_app c l
                    {| Utils.channelId := c;
                       Utils.lastSubscribedAt := clock (S (ticks w1)) |} eq_refl)
          as [s' ->]
    end.
    eexists. repeat split.
Qed.
End UtilsRegistryMore.

Section UtilsOperations.
Context `{Platform}.

Lemma utils_filter_absent c l :
  Utils.find_channel c l = None ->
  List.filter (fun s => negb (String.eqb (Utils.channelId s) c)) l = l.
Proof.
  unfold Utils.find_channel. induction l as [|s l IH]; cbn; [reflexivity|].
  destruct (String.eqb (Utils.channelId s) c); [discriminate|].
  intros Hl. cbn. now rewrite (IH Hl).
Qed.

(** What [listAll] reads from a store that holds what [listAll] read
    before. *)
Lemma utils_reads_again w l w1 w2 :
  Utils.getAllSubscriptions w = (Ok l, w1) ->
  KV w2 = KV w1 ->
  fst (Utils.getAllSubscriptions w2) = Ok l.
Proof.
  intros Hget HKV. rewrite (utils_getAllSubscriptions_store w1 w2 HKV).
  exact (utils_getAllSubscriptions_again _ _ _ Hget).
Qed.

(** What the renewal of [utils.ts] comes to, whatever the network does:
    it throws and the store is the one [listAll] left, or it ends and has
    written the list it read. *)
Lemma utils_renew_general env w l w1 :
  Utils.getAllSubscriptions w = (Ok l, w1) ->
  exists r w2,
    Utils.renewSubscriptionCronWorker env w = (r, w2)
    /\ ((exists e, r = Throw e) /\ KV w2 = KV w1
        \/ r = Ok tt
           /\ KV w2 = <[Utils.SUBSCRIPTION_KV_KEY :=
                          JSON_stringify (VArr (map Utils.Subscription_value l))]> (KV w1)).
Proof.
  intros Hget. unfold Utils.renewSubscriptionCronWorker, bind at 1. rewrite Hget.
  unfold bind at 1.
  destruct (utils_renew_loop_general env l [] w1) as (r & w' & -> & HKV & Hl).
  destruct r as [l'|e].
  - rewrite (Hl l' eq_refl). cbn [app]. unfold KV_put.
    eexists _, _. split; [reflexivity|]. cbn [KV tick].
    right; split; [reflexivity | now rewrite HKV].
  - eexists _, _. split; [reflexivity|].
    left; split; [eauto | exact HKV].
Qed.

(** What [listAll] reads from a store in which the list [l] was written
    last. *)
Lemma utils_reads_written l w w2 :
  KV w2 = <[Utils.SUBSCRIPTION_KV_KEY :=
              JSON_stringify (VArr (map Utils.Subscription_value l))]> (KV w) ->
  fst (Utils.getAllSubscriptions w2) = fst (Utils.getAllSubscriptions (utils_written l w)).
Proof. intros HKV. apply utils_getAllSubscriptions_store. exact HKV. Qed.

(** X8: [remove] of [utils.ts] of a channel of the list, when the hub
    answers with a success status and the times of the list are numbers
    [JSON.stringify] writes as they are: [listAll] then reads the list
    without the entries of the channel, the others as they were and in
    their order. *)
Theorem utils_removeSubscription_then_list env c w l w1 status :
  Utils.getAllSubscriptions w = (Ok l, w1) ->
  times_kept l = true ->
  c ∈ utils_channels l ->
  fetch_outcome (ticks w1)
    (hub_request unsubscribe c (API_SECRET env) (APP_DOMAIN env +:+ "/callback"))
  = Response status ->
  response_ok status = true ->
  exists w2 w3,
    Utils.removeSubscription env c w = (Ok tt, w2)
    /\ Utils.getAllSubscriptions w2
       = (Ok (List.filter (fun s => negb (String.eqb (Utils.channelId s) c)) l), w3)
    /\ (c ∉ utils_channels (List.filter (fun s => negb (String.eqb (Utils.channelId s) c)) l)).
Proof.
  intros Hget Hkept Hin Hhub Hok.
  rewrite (utils_removeSubscription_eq env c w l w1 Hget).
  destruct (Utils.find_channel c l) as [s|] eqn:Hfind.
  - rewrite Hhub, Hok. eexists _, _. split; [reflexivity|].
    split; [apply utils_getAllSubscriptions_written, times_kept_filter, Hkept|].
    clear. unfold utils_channels. induction l as [|s l IH]; cbn [List.filter map].
    + apply not_elem_of_nil.
    + destruct (String.eqb_spec (Utils.channelId s) c) as [Heq|Hne]; cbn [negb map];
        [exact IH|]. rewrite not_elem_of_cons. split; [congruence | exact IH].
  - apply utils_find_channel_elem in Hfind. contradiction.
Qed.

(** X9: [remove] of a channel that is not in the list returns without a
    call to the hub and without a write of its own.  In [lib.ts] store and
    network are as they were; in [utils.ts] the network is, and the store
    is as [listAll] left it: as it was, or without the corrupt text
    [listAll] found there and deleted. *)
Theorem removeSubscription_absent env c w :
  (forall l w1,
      Utils.getAllSubscriptions w = (Ok l, w1) ->
      (c ∉ utils_channels l) ->
      Utils.removeSubscription env c w = (Ok tt, w1)
      /\ sent w1 = sent w
      /\ (KV w1 = KV w
          \/ (l = []
              /\ (exists j, KV w !! Utils.SUBSCRIPTION_KV_KEY = Some (Json j)
                            /\ v_array Utils.subscription (of_json j) = None)
              /\ KV w1 = delete Utils.SUBSCRIPTION_KV_KEY (KV w))))
  /\ (forall l w1,
        Lib.getAllSubscriptions w = (Ok (VArr l), w1) ->
        Array_find (channelId_is c) l = Ok VUndefined ->
        Lib.removeSubscription env c w = (Ok tt, w1) /\ sent w1 = sent w /\ KV w1 = KV w).
Proof.
  split.
  - intros l w1 Hget Hnot.
    rewrite (utils_removeSubscription_eq env c w l w1 Hget).
    apply utils_find_channel_elem in Hnot. rewrite Hnot.
    split; [reflexivity|].
    destruct (utils_getAllSubscriptions_world _ _ _ Hget) as [Hsent [HKV | (Hnil & Hbad & HKV)]].
    + split; [exact Hsent | left; exact HKV].
    + split; [exact Hsent | right]. injection Hnil as ->. auto.
  - intros l w1 Hget Hfind.
    rewrite (lib_removeSubscription_eq env c w l w1 Hget), Hfind. cbn [truthy negb].
    rewrite (lib_getAllSubscriptions_world _ _ _ Hget). repeat split.
Qed.

(** X10: [add] of a channel that is not in the list, then [remove] of it,
    with a hub that says yes to both and times of the list that are
    numbers [JSON.stringify] writes as they are: [listAll] of [utils.ts]
    reads the list it read before the two. *)
Theorem utils_add_then_remove env c w l w1 :
  hub_says_yes ->
  Utils.getAllSubscriptions w = (Ok l, w1) ->
  times_kept l = true ->
  (c ∉ utils_channels l) ->
  exists w2,
    (Utils.addSubscription env c ;; Utils.removeSubscription env c) w = (Ok tt, w2)
    /\ fst (Utils.getAllSubscriptions w2) = Ok l.
Proof.
  intros Hhub Hget Hkept Hnot. apply utils_find_channel_elem in Hnot.
  unfold bind. rewrite (utils_addSubscription_eq env c w l w1 Hget), Hnot.
  destruct (Hhub (ticks w1) (hub_request subscribe c (API_SECRET env)
                                ("https://" +:+ APP_DOMAIN env +:+ "/callback")))
    as (status & -> & ->).
  match goal with
  | |- context [utils_written ?l' ?w0] =>
      assert (Hkept' : times_kept l' = true)
        by (rewrite times_kept_app, Hkept; reflexivity);
      rewrite (utils_removeSubscription_eq env c (utils_written l' w0) l'
                 (tick (utils_written l' w0))
                 (utils_getAllSubscriptions_written l' w0 Hkept'));
      destruct (utils_find_channel_app c l
                  {| Utils.channelId := c; Utils.lastSubscribedAt := clock (S (ticks w1)) |}
                  eq_refl) as [s' ->]
  end.
  match goal with
  | |- context [fetch_outcome ?n ?r] => destruct (Hhub n r) as (status' & -> & ->)
  end.
  eexists. split; [reflexivity|].
  rewrite List.filter_app, (utils_filter_absent _ _ Hnot). cbn [List.filter Utils.channelId].
  rewrite String.eqb_refl. cbn [negb]. rewrite app_nil_r.
  now rewrite (utils_getAllSubscriptions_written l _ Hkept).
Qed.

(** X11: the operations of [utils.ts] keep the list free of repeated
    channels: from a list without two entries for one channel, [add],
    [remove] and the renewal, whatever the hub and the network do and
    whether they return or throw, leave a store [listAll] reads such a
    list from. *)
Theorem utils_channels_stay_unique env c w l w1 :
  Utils.getAllSubscriptions w = (Ok l, w1) ->
  NoDup (utils_channels l) ->
  (exists l', fst (Utils.getAllSubscriptions (snd (Utils.addSubscription env c w))) = Ok l'
              /\ NoDup (utils_channels l'))
  /\ (exists l', fst (Utils.getAllSubscriptions (snd (Utils.removeSubscription env c w))) = Ok l'
                 /\ NoDup (utils_channels l'))
  /\ (exists l', fst (Utils.getAllSubscriptions
                        (snd (Utils.renewSubscriptionCronWorker env w))) = Ok l'
                 /\ NoDup (utils_channels l')).
Proof.
  intros Hget Hunique.
  assert (Hwritten : forall l0 w0,
             NoDup (utils_channels l0) ->
             exists l', fst (Utils.getAllSubscriptions (utils_written l0 w0)) = Ok l'
                        /\ NoDup (utils_channels l')).
  { intros l0 w0 Hl0.
    destruct (utils_getAllSubscriptions_written_any l0 w0) as (l' & Hread & [-> | Hsame]).
    - exists []. split; [exact Hread | constructor].
    - exists l'. split; [exact Hread|]. unfold utils_channels. now rewrite Hsame. }
  assert (Hagain : forall w2, KV w2 = KV w1 ->
             exists l', fst (Utils.getAllSubscriptions w2) = Ok l'
                        /\ NoDup (utils_channels l')).
  { intros w2 HKV. exists l. split; [|exact Hunique].
    eapply utils_reads_again; [exact Hget | exact HKV]. }
  split; [|split].
  - rewrite (utils_addSubscription_eq env c w l w1 Hget).
    destruct (Utils.find_channel c l) as [s|] eqn:Hfind; [now apply Hagain|].
    destruct (fetch_outcome _ _) as [|status]; [now apply Hagain|].
    destruct (response_ok status); [|now apply Hagain].
    cbn [snd]. apply Hwritten.
    unfold utils_channels in *. rewrite map_app. cbn [map Utils.channelId].
    apply NoDup_app. split; [exact Hunique|]. split; [|apply NoDup_singleton].
    intros x Hx Hc. apply list_elem_of_singleton in Hc. subst x.
    apply utils_find_channel_elem in Hfind. contradiction.
  - rewrite (utils_removeSubscription_eq env c w l w1 Hget).
    destruct (Utils.find_channel c l) as [s|] eqn:Hfind; [|now apply Hagain].
    destruct (fetch_outcome _ _) as [|status]; [now apply Hagain|].
    destruct (response_ok status); [|now apply Hagain].
    cbn [snd]. apply Hwritten. exact (proj1 (utils_channels_filter c l Hunique)).
  - destruct (utils_renew_general env w l w1 Hget)
      as (r & w2 & -> & [[_ HKV] | [_ HKV]]); cbn [snd].
    + now apply Hagain.
    + rewrite (utils_reads_written l w1 w2 HKV). now apply Hwritten.
Qed.

End UtilsOperations.

(** ** The registry of [lib.ts], further *)

Section LibOperations.
Context `{Platform}.

Lemma Array_filter_parsed p js updated :
  Array_filter p (map of_json js) = Ok updated -> exists js', updated = map of_json js'.
Proof.
  revert updated. induction js as [|j js IH]; cbn [map Array_filter]; intros updated.
  - intros [= <-]. now exists [].
  - destruct (p (of_json j)) as [b|e]; [|discriminate].
    destruct (Array_filter p (map of_json js)) as [r|e]; [|discriminate].
    destruct (IH r eq_refl) as [js' ->]. intros [= <-].
    destruct b; [now exists (j :: js') | now exists js'].
Qed.

Lemma Array_filter_is_not_find c l updated :
  Array_filter (channelId_is_not c) l = Ok updated ->
  Array_find (channelId_is c) updated = Ok VUndefined.
Proof.
  unfold channelId_is_not. revert updated.
  induction l as [|x l IH]; cbn [Array_filter]; intros updated.
  - now intros [= <-].
  - destruct (channelId_is c x) as [b|e] eqn:Hx; [|discriminate].
    destruct (Array_filter _ l) as [r|e]; [|discriminate].
    intros [= <-]. destruct b; cbn [negb]; [exact (IH r eq_refl)|].
    cbn [Array_find]. rewrite Hx. exact (IH r eq_refl).
Qed.

Lemma of_json_to_json_parsed js :
  numbers_kept (VArr (map of_json js)) = true ->
  of_json (to_json Date_toISOString (VArr (map of_json js))) = VArr (map of_json js).
Proof.
  intros Hkept. change (VArr (map of_json js)) with (of_json (Jarr js)) in *.
  now rewrite (to_json_of_json _ _ Hkept).
Qed.

Lemma Array_filter_numbers_kept p l updated :
  Array_filter p l = Ok updated ->
  numbers_kept (VArr l) = true -> numbers_kept (VArr updated) = true.
Proof.
  cbn [numbers_kept]. revert updated.
  induction l as [|x l IH]; cbn [Array_filter forallb]; intros updated.
  - now intros [= <-].
  - destruct (p x) as [b|e]; [|discriminate].
    destruct (Array_filter p l) as [r|e]; [|discriminate].
    intros [= <-] Hkept. apply andb_true_iff in Hkept as [Hx Hl].
    destruct b; cbn [forallb]; [rewrite Hx|]; now apply IH.
Qed.

(** X13: [remove] of [lib.ts] of a channel of the array, when the hub
    answers with a success status, no element of the array makes the
    filter throw and the numbers of the array are numbers [JSON.stringify]
    writes as they are: [listAll] then reads the array without the entries
    of the channel, and a search for the channel finds nothing in it. *)
Theorem lib_removeSubscription_then_list env c w l w1 found updated status :
  Lib.getAllSubscriptions w = (Ok (VArr l), w1) ->
  numbers_kept (VArr l) = true ->
  Array_find (channelId_is c) l = Ok found ->
  found <> VUndefined ->
  Array_filter (channelId_is_not c) l = Ok updated ->
  fetch_outcome (ticks w1) (hub_request unsubscribe c (API_SECRET env) (Lib.callbackUrl env))
  = Response status ->
  response_ok status = true ->
  exists w2 w3,
    Lib.removeSubscription env c w = (Ok tt, w2)
    /\ Lib.getAllSubscriptions w2 = (Ok (VArr updated), w3)
    /\ Array_find (channelId_is c) updated = Ok VUndefined.
Proof.
  intros Hget Hkept Hfind Hfound Hfilter Hhub Hok.
  rewrite (lib_removeSubscription_eq env c w l w1 Hget), Hfind.
  rewrite (Array_find_truthy _ _ _ Hfind Hfound). cbn [negb].
  rewrite Hhub, Hok, Hfilter.
  eexists _, _. split; [reflexivity|]. split.
  - rewrite lib_getAllSubscriptions_written. f_equal. f_equal.
    pose proof (Array_filter_numbers_kept _ _ _ Hfilter Hkept) as Hkept'.
    destruct (lib_getAllSubscriptions_array _ _ _ Hget) as [js ->].
    destruct (Array_filter_parsed _ _ _ Hfilter) as [js' ->].
    now apply of_json_to_json_parsed.
  - exact (Array_filter_is_not_find _ _ _ Hfilter).
Qed.

(** The loop of the renewal of [lib.ts], whatever the network does and
    whatever the array holds: it leaves the store alone, and when it ends
    it has pushed one entry per item. *)
Lemma lib_renew_loop_general env todo : forall acc w,
  exists r w',
    Lib.renew_loop env todo acc w = (r, w')
    /\ KV w' = KV w
    /\ (forall updated, r = Ok updated -> length updated = (length acc + length todo)%nat).
Proof.
  induction todo as [|s rest IH]; intros acc w; cbn [Lib.renew_loop].
  - exists (Ok acc), w. split; [reflexivity|]. split; [reflexivity|].
    intros updated [= <-]. cbn. lia.
  - unfold bind at 1, lift at 1.
    destruct (js_get "channelId" s) as [channelId|e].
    2:{ eexists _, _. split; [reflexivity|]. split; [reflexivity | discriminate]. }
    unfold bind at 1, lift at 1.
    destruct (js_String channelId) as [topic|e].
    2:{ eexists _, _. split; [reflexivity|]. split; [reflexivity | discriminate]. }
    unfold bind at 1. rewrite lib_requestSubscription_eq.
    destruct (fetch_outcome _ _) as [|status].
    { eexists _, _. split; [reflexivity|]. split; [reflexivity | discriminate]. }
    destruct (response_ok status); cbn [negb]; unfold bind at 1.
    + unfold ret at 1. unfold bind at 1, Date_now.
      match goal with
      | |- context [Lib.renew_loop env rest ?a ?w0] =>
          destruct (IH a w0) as (r & w' & -> & HKV & Hl)
      end.
      exists r, w'. split; [reflexivity|]. split; [exact HKV|].
      intros updated Hr. rewrite (Hl updated Hr), length_app. cbn. lia.
    + unfold bind at 1, lift at 1.
      rewrite lib_discordLog_detached. unfold bind at 1, Date_now.
      match goal with
      | |- context [Lib.renew_loop env rest ?a ?w0] =>
          destruct (IH a w0) as (r & w' & -> & HKV & Hl)
      end.
      exists r, w'. split; [reflexivity|]. split; [exact HKV|].
      intros updated Hr. rewrite (Hl updated Hr), length_app. cbn. lia.
Qed.

(** X14: the renewal of [lib.ts] never leaves a part of the array behind:
    when it throws (the stored text is no JSON or nothing to go through, an
    element is [null], the network fails), the store is as it was; when it
    returns, it has written, in one write, an array with one entry per item
    it went through. *)
Theorem lib_renewAll_all_or_nothing env w :
  match Lib.renewAll env w with
  | (Throw _, w2) => KV w2 = KV w
  | (Ok _, w2) =>
      exists subscriptions todo updated,
        fst (Lib.getAllSubscriptions w) = Ok subscriptions
        /\ iterate subscriptions = Ok todo
        /\ length updated = length todo
        /\ KV w2 = <["subscriptions" := JSON_stringify (VArr updated)]> (KV w)
  end.
Proof.
  unfold Lib.renewAll, bind at 1.
  destruct (Lib.getAllSubscriptions w) as [[subscriptions|e] w1] eqn:Hget;
    pose proof (lib_getAllSubscriptions_world _ _ _ Hget) as ->; [|reflexivity].
  unfold bind at 1, lift at 1.
  destruct (iterate subscriptions) as [todo|e] eqn:Hiter; [|reflexivity].
  unfold bind at 1.
  destruct (lib_renew_loop_general env todo [] (tick w)) as (r & w' & -> & HKV & Hl).
  destruct r as [updated|e]; [|exact HKV].
  unfold KV_put. cbn [KV tick].
  exists subscriptions, todo, updated.
  split; [reflexivity|]. split; [exact Hiter|].
  split; [exact (Hl updated eq_refl) | now rewrite HKV].
Qed.

(** X15: [lib.ts] with a stored text that is JSON and no array: [add] and
    [remove] throw a [TypeError] before any call to the hub, and the text
    stays where it is; every later call does the same. *)
Theorem lib_registry_not_an_array env c w j :
  KV w !! "subscriptions" = Some (Json j) ->
  (forall js, j <> Jarr js) ->
  Lib.addSubscription env c w = (Throw TypeError, tick w)
  /\ Lib.removeSubscription env c w = (Throw TypeError, tick w)
  /\ KV (tick w) !! "subscriptions" = Some (Json j)
  /\ sent (tick w) = sent w.
Proof.
  intros Hkey Hnot.
  assert (Hget : Lib.getAllSubscriptions w = (Ok (of_json j), tick w))
    by now rewrite lib_getAllSubscriptions_eq, Hkey.
  assert (Harr : as_array (of_json j) = Throw TypeError).
  { destruct j; try reflexivity. exfalso. exact (Hnot l eq_refl). }
  split; [|split; [|split; [exact Hkey | reflexivity]]].
  - unfold Lib.addSubscription, bind at 1. rewrite Hget.
    unfold bind at 1, lift at 1. now rewrite Harr.
  - unfold Lib.removeSubscription, bind at 1. rewrite Hget.
    unfold bind at 1, lift at 1. now rewrite Harr.
Qed.
End LibOperations.

(** ** The notification pipeline, further *)

Section PipelineMore.
Context `{Platform}.

Lemma lib_discordLog_eq webhookUrl message w :
  Lib.discordLog webhookUrl message w =
    (match fetch_outcome (ticks w) (discord_request webhookUrl message) with
     | NetworkFailure => Throw (PlatformError "fetch")
     | Response status => Ok status
     end, after_fetch (discord_request webhookUrl message) w).
Proof. unfold Lib.discordLog. now rewrite fetch_eq. Qed.

Lemma utils_discordLog_eq env message w :
  Utils.discordLog env message w =
    (match fetch_outcome (ticks w) (discord_request (DISCORD_WEBHOOK_URL env) message) with
     | NetworkFailure => Throw (PlatformError "fetch")
     | Response _ => Ok tt
     end, after_fetch (discord_request (DISCORD_WEBHOOK_URL env) message) w).
Proof.
  unfold Utils.discordLog, bind. rewrite fetch_eq.
  destruct (fetch_outcome _ _); reflexivity.
Qed.

(** What [callback] of [lib.ts] does once the signature is verified. *)
Lemma lib_callback_verified env xml s w :
  s <> EmptyString ->
  fst (Lib.verifyNotificationSignature (API_SECRET env) s xml w) = Ok true ->
  Lib.callback env xml (Some s) w =
    match XMLParser_parse false xml with
    | Throw e => (Throw e, w)
    | Ok data =>
        match Lib.callbackSchema data with
        | Some (Some output) =>
            let r := discord_request (DISCORD_WEBHOOK_URL env) (lib_message output) in
            (match fetch_outcome (ticks w) r with
             | NetworkFailure => Throw (PlatformError "fetch")
             | Response _ => Ok tt
             end, after_fetch r w)
        | _ => (Ok tt, w)
        end
    end.
Proof.
  intros Hs Hverify. unfold Lib.callback. unfold bind at 1.
  destruct (String.eqb_spec s EmptyString) as [->|_]; [contradiction|].
  pose proof (lib_verify_world (API_SECRET env) s xml w) as Hw.
  destruct (Lib.verifyNotificationSignature _ s xml w) as [r w']; simpl in *; subst w' r.
  cbn [negb]. unfold bind at 1, lift at 1.
  destruct (XMLParser_parse false xml) as [data|e]; [|reflexivity].
  destruct (Lib.callbackSchema data) as [[output|]|]; try reflexivity.
  unfold bind, Lib.sendDiscordNotification. fold (lib_message output).
  rewrite lib_discordLog_eq. cbn zeta.
  destruct (fetch_outcome _ _); reflexivity.
Qed.

Lemma no_date_property k v x :
  own_property k v = Some x -> no_date v = true -> no_date x = true.
Proof.
  destruct v as [ | | b | n | s | t | | l | fs]; cbn [own_property no_date]; try discriminate.
  - destruct (String.eqb k "link"); [now intros [= <-]|].
    destruct (String.eqb k "length"); [now intros [= <-]|].
    destruct (array_index k (String.length s)) as [i|]; [|discriminate].
    destruct (String.get i s); cbn [option_map]; [now intros [= <-] | discriminate].
  - destruct (String.eqb k "length"); [now intros [= <-]|].
    destruct (array_index k (length l)) as [i|]; [|discriminate].
    intros Hx Hl. rewrite forallb_forall in Hl. apply Hl.
    apply list_elem_of_In. eapply list_elem_of_lookup_2. exact Hx.
  - induction fs as [|[k' v] fs IH]; cbn [assoc forallb snd]; [discriminate|].
    intros Hx Hfs. apply andb_true_iff in Hfs as [Hv Hfs].
    destruct (String.eqb k k'); [now injection Hx as <- | auto].
Qed.

(** An entry the schema of [lib.ts] has no issues with holds a [Date]
    object: its [published]. *)
Lemma entrySchema_published e video :
  Lib.entrySchema e = Some video ->
  exists t, own_property "published" e = Some (VDate (Some t)).
Proof.
  unfold Lib.entrySchema, v_object. destruct (is_object e); [|discriminate].
  destruct (v_entry "published" v_date e) as [t|] eqn:Hpublished.
  - intros _. revert Hpublished. unfold v_entry, v_date.
    destruct (own_property "published" e) as [[ | | | | | [t'|] | | | ]|];
      try discriminate. eauto.
  - repeat (match goal with
            | |- context [v_entry ?k ?item ?input] =>
                destruct (v_entry k item input); cbn [mbind option_bind]
            end; try discriminate).
Qed.

(** A document [lib.ts] classifies as a video has that entry in it. *)
Lemma callbackSchema_entry data output :
  Lib.callbackSchema data = Some (Some output) ->
  exists feed e video,
    own_property "feed" data = Some feed
    /\ own_property "entry" feed = Some e
    /\ Lib.entrySchema e = Some video.
Proof.
  unfold Lib.callbackSchema, v_pipe_transform, v_object at 1.
  destruct (is_object data); [|discriminate].
  unfold v_entry at 1.
  destruct (own_property "feed" data) as [feed|]; [|discriminate].
  unfold Lib.feedSchema, v_union, v_object at 1 2.
  destruct (is_object feed); [|discriminate].
  unfold v_entry at 1, v_unknown.
  destruct (own_property "at:deleted-entry" feed); [discriminate|].
  cbn [fmap option_fmap option_map]. unfold v_entry_optional.
  destruct (own_property "entry" feed) as [e|] eqn:Hentry; [|discriminate].
  destruct (Lib.entrySchema e) as [video|] eqn:He.
  - intros _. exists feed, e, video. auto.
  - destruct e; discriminate.
Qed.

Lemma callbackSchema_no_date data :
  no_date data = true ->
  Lib.callbackSchema data = None \/ Lib.callbackSchema data = Some None.
Proof.
  intros Hdata. destruct (Lib.callbackSchema data) as [[output|]|] eqn:Hschema; auto.
  destruct (callbackSchema_entry _ _ Hschema) as (feed & e & video & Hfeed & Hentry & He).
  destruct (entrySchema_published _ _ He) as [t Hpublished].
  pose proof (no_date_property _ _ _ Hpublished
                (no_date_property _ _ _ Hentry (no_date_property _ _ _ Hfeed Hdata)))
    as Hdate.
  discriminate Hdate.
Qed.

(** X16: [lib.ts] never forwards a push.  Its schema wants [Date] objects
    for [published] and [updated]; in a document without a [Date] object,
    and an XML parser returns no other, the schema has issues with every
    entry.  So [callback] sends nothing and leaves the world as it was,
    whatever the header; and a push that verifies and parses is answered
    [OK]. *)
Theorem lib_callback_never_forwards env xml signature w :
  (forall data, XMLParser_parse false xml = Ok data -> no_date data = true) ->
  snd (Lib.callback env xml signature w) = w
  /\ (forall s data,
        signature = Some s -> s <> EmptyString ->
        fst (Lib.verifyNotificationSignature (API_SECRET env) s xml w) = Ok true ->
        XMLParser_parse false xml = Ok data ->
        Lib.post_callback env xml signature w = (Ok (text_response 200 "OK"), w)).
Proof.
  intros Hparsed.
  assert (Hverified : forall s data,
             s <> EmptyString ->
             fst (Lib.verifyNotificationSignature (API_SECRET env) s xml w) = Ok true ->
             XMLParser_parse false xml = Ok data ->
             Lib.callback env xml (Some s) w = (Ok tt, w)).
  { intros s data Hs Hverify Hparse.
    apply (lib_callback_ignores env xml s w data Hs Hverify Hparse).
    exact (callbackSchema_no_date data (Hparsed data Hparse)). }
  split.
  - destruct signature as [s|]; [|reflexivity].
    destruct (String.eqb_spec s EmptyString) as [->|Hs]; [reflexivity|].
    destruct (fst (Lib.verifyNotificationSignature (API_SECRET env) s xml w)) as [[|]|e]
      eqn:Hverify.
    + rewrite (lib_callback_verified env xml s w Hs Hverify).
      destruct (XMLParser_parse false xml) as [data|e] eqn:Hparse; [|reflexivity].
      destruct (callbackSchema_no_date data (Hparsed data eq_refl)) as [-> | ->];
        reflexivity.
    + destruct (lib_callback_rejects env xml (Some s) w) as [e ->];
        [right; rewrite Hverify; discriminate | reflexivity].
    + destruct (lib_callback_rejects env xml (Some s) w) as [e' ->];
        [right; rewrite Hverify; discriminate | reflexivity].
  - intros s data -> Hs Hverify Hparse.
    unfold Lib.post_callback. now rewrite (Hverified s data Hs Hverify Hparse).
Qed.

(** X17: a deletion marker wins in [lib.ts]: a feed that has the key
    [at:deleted-entry] is classified as nothing to send whatever its entry
    is, valid or not; so is a feed with neither marker nor entry.  A
    verified push of such a feed returns with the world as it was. *)
Theorem lib_callback_nothing_to_send env xml s w data feed :
  s <> EmptyString ->
  fst (Lib.verifyNotificationSignature (API_SECRET env) s xml w) = Ok true ->
  XMLParser_parse false xml = Ok data ->
  is_object data = true ->
  own_property "feed" data = Some feed ->
  is_object feed = true ->
  own_property "at:deleted-entry" feed <> None
  \/ (own_property "entry" feed = None \/ own_property "entry" feed = Some VUndefined) ->
  Lib.callbackSchema data = Some None
  /\ Lib.callback env xml (Some s) w = (Ok tt, w).
Proof.
  intros Hs Hverify Hparse Hdata Hfeed Hobj Hcases.
  assert (Hschema : Lib.callbackSchema data = Some None).
  { unfold Lib.callbackSchema, v_pipe_transform, v_object at 1. rewrite Hdata.
    unfold v_entry at 1. rewrite Hfeed.
    unfold Lib.feedSchema, v_union, v_object at 1 2. rewrite Hobj.
    unfold v_entry at 1, v_unknown.
    destruct (own_property "at:deleted-entry" feed) as [marker|]; [reflexivity|].
    destruct Hcases as [Hmarker | Hentry]; [contradiction|].
    cbn [fmap option_fmap option_map]. unfold v_entry_optional.
    destruct Hentry as [-> | ->]; reflexivity. }
  split; [exact Hschema|].
  apply (lib_callback_ignores env xml s w data Hs Hverify Hparse). now right.
Qed.

(** X18: the pipeline of [lib.ts] never writes to the store, and a push
    makes it send at most one request: the message to the webhook. *)
Theorem lib_callback_store_untouched env xml signature w :
  KV (snd (Lib.callback env xml signature w)) = KV w
  /\ (sent (snd (Lib.callback env xml signature w)) = sent w
      \/ exists message,
          sent (snd (Lib.callback env xml signature w))
          = sent w ++ [discord_request (DISCORD_WEBHOOK_URL env) message]).
Proof.
  destruct signature as [s|]; [|split; [reflexivity | left; reflexivity]].
  destruct (String.eqb_spec s EmptyString) as [->|Hs];
    [split; [reflexivity | left; reflexivity]|].
  destruct (fst (Lib.verifyNotificationSignature (API_SECRET env) s xml w)) as [[|]|e]
    eqn:Hverify.
  - rewrite (lib_callback_verified env xml s w Hs Hverify).
    destruct (XMLParser_parse false xml) as [data|e]; [|split; [reflexivity | left; reflexivity]].
    destruct (Lib.callbackSchema data) as [[output|]|];
      try (split; [reflexivity | left; reflexivity]).
    cbn zeta. split; [reflexivity | right; eexists; reflexivity].
  - destruct (lib_callback_rejects env xml (Some s) w) as [e ->];
      [right; rewrite Hverify; discriminate | split; [reflexivity | left; reflexivity]].
  - destruct (lib_callback_rejects env xml (Some s) w) as [e' ->];
      [right; rewrite Hverify; discriminate | split; [reflexivity | left; reflexivity]].
Qed.

(** X19: the route of [utils.ts] answers [OK] and sends nothing for a feed
    with a deletion marker that is truthy, and for a feed without an entry
    or with an entry that is falsy. *)
Theorem utils_notify_nothing_to_send env data feed w :
  own_property "feed" data = Some feed ->
  feed <> VUndefined -> feed <> VNull ->
  truthy (default VUndefined (own_property "at:deleted-entry" feed)) = true
  \/ truthy (default VUndefined (own_property "entry" feed)) = false ->
  Utils.notify env data w = (Ok (text_response 200 "OK"), w).
Proof.
  intros Hfeed Hu Hn Hcases.
  assert (Hdata : js_get "feed" data = Ok feed).
  { unfold js_get. destruct data; try discriminate Hfeed; now rewrite Hfeed. }
  assert (Hget : forall k, js_get k feed = Ok (default VUndefined (own_property k feed))).
  { intros k. destruct feed; try reflexivity; contradiction. }
  unfold Utils.notify. unfold bind at 1, lift at 1. rewrite Hdata.
  unfold bind at 1, lift at 1. rewrite Hget.
  destruct (truthy (default VUndefined (own_property "at:deleted-entry" feed))) eqn:Hmarker;
    [reflexivity|].
  destruct Hcases as [Habs | Hentry]; [discriminate|].
  unfold bind at 1, lift at 1. rewrite Hget, Hentry. reflexivity.
Qed.
End PipelineMore.

(** ** The routers *)

Section Routers.
Context `{Platform}.

Lemma authorized_iff env authorization :
  authorized env authorization = true <->
  authorization = Some ("Bearer " +:+ API_SECRET env).
Proof.
  destruct authorization as [value|]; cbn [authorized]; [|split; discriminate].
  destruct (String.eqb_spec value ("Bearer " +:+ API_SECRET env)) as [->|Hne];
    split; try reflexivity; try discriminate.
  intros [= ->]. contradiction.
Qed.

Lemma authorized_bearer env : authorized env (Some ("Bearer " +:+ API_SECRET env)) = true.
Proof. now apply authorized_iff. Qed.

(** X20: without the header [Authorization: Bearer <API_SECRET>], exact to
    the character, every route under [/api/] of both routers answers 401
    [Unauthorized]; nothing is read, written or sent. *)
Theorem api_routes_unauthorized env authorization channelId w :
  authorization <> Some ("Bearer " +:+ API_SECRET env) ->
  LibRouter.get_subscriptions env authorization w = (Ok unauthorized, w)
  /\ LibRouter.post_subscribe env authorization channelId w = (Ok unauthorized, w)
  /\ LibRouter.post_unsubscribe env authorization channelId w = (Ok unauthorized, w)
  /\ LibRouter.post_force_renew env authorization w = (Ok unauthorized, w)
  /\ UtilsRouter.get_subscriptions env authorization w = (Ok unauthorized, w)
  /\ UtilsRouter.post_subscribe env authorization channelId w = (Ok unauthorized, w)
  /\ UtilsRouter.post_unsubscribe env authorization channelId w = (Ok unauthorized, w).
Proof.
  intros Hne.
  assert (Hno : authorized env authorization = false).
  { destruct (authorized env authorization) eqn:Hyes; [|reflexivity].
    apply authorized_iff in Hyes. contradiction. }
  unfold LibRouter.get_subscriptions, LibRouter.post_subscribe, LibRouter.post_unsubscribe,
    LibRouter.post_force_renew, UtilsRouter.get_subscriptions, UtilsRouter.post_subscribe,
    UtilsRouter.post_unsubscribe, routed, api.
  rewrite Hno. repeat split; reflexivity.
Qed.

(** How a list is written when [JSON.stringify] keeps its times. *)
Lemma utils_list_to_json l :
  times_kept l = true ->
  to_json Date_toISOString (VArr (map Utils.Subscription_value l))
  = Jarr (map (fun s => Jobj [("channelId", Jstr (Utils.channelId s));
                              ("lastSubscribedAt", Jnum (Utils.lastSubscribedAt s))])
            l).
Proof.
  intros Hkept. cbn [to_json]. rewrite map_map. f_equal. revert Hkept. unfold times_kept.
  induction l as [|[c t] l IH]; cbn [map forallb]; [reflexivity|].
  intros Hkept. apply andb_true_iff in Hkept as [Ht Hl]. rewrite (IH Hl). f_equal.
  destruct t; try discriminate Ht. reflexivity.
Qed.

(** X21: the route [GET /api/subscriptions] of [part_000] hands the promise
    of [getAllSubscriptions] to [c.json]: an authorized request is answered
    with the empty object, whatever the store holds.  The route of
    [part_001] awaits the list, and answers with the subscriptions that
    were written, in their order, when their times are numbers
    [JSON.stringify] writes as they are. *)
Theorem subscriptions_route_answers env l w :
  let bearer := Some ("Bearer " +:+ API_SECRET env) in
  (exists w', LibRouter.get_subscriptions env bearer w = (Ok (json_answer 200 (Jobj [])), w')
              /\ KV w' = KV w /\ sent w' = sent w)
  /\ (times_kept l = true ->
      UtilsRouter.get_subscriptions env bearer (utils_written l w) =
        (Ok (json_answer 200
               (Jarr (map (fun s => Jobj [("channelId", Jstr (Utils.channelId s));
                                          ("lastSubscribedAt",
                                           Jnum (Utils.lastSubscribedAt s))])
                        l))),
         tick (utils_written l w))).
Proof.
  intros bearer. split.
  - unfold LibRouter.get_subscriptions, routed, api. subst bearer.
    rewrite authorized_bearer. unfold bind, detached, ret.
    rewrite lib_getAllSubscriptions_eq. cbn [snd KV sent tick].
    eexists. split; [reflexivity|]. split; reflexivity.
  - intros Hkept. unfold UtilsRouter.get_subscriptions, routed, api. subst bearer.
    rewrite authorized_bearer. unfold bind at 1.
    rewrite (utils_getAllSubscriptions_written l w Hkept). unfold ret.
    now rewrite (utils_list_to_json l Hkept).
Qed.

End Routers.

(** ** Documents the route of [utils.ts] cannot read *)

Section UtilsIncomplete.
Context `{Platform}.

Lemma js_get_throws k v e : js_get k v = Throw e -> e = TypeError.
Proof. destruct v; cbn [js_get]; congruence. Qed.

Lemma js_get_present k v x : own_property k v = Some x -> js_get k v = Ok x.
Proof. intros Hx. destruct v; try discriminate Hx; cbn [js_get]; now rewrite Hx. Qed.

Lemma js_get_truthy k v :
  truthy v = true -> js_get k v = Ok (field k v).
Proof. destruct v as [ | | | [] | | | | | ]; try discriminate; reflexivity. Qed.

Lemma js_get_field k v : v <> VUndefined -> v <> VNull -> js_get k v = Ok (field k v).
Proof. intros Hu Hn. destruct v; try reflexivity; contradiction. Qed.

(** A conversion to a string that throws throws a [TypeError]. *)
Lemma js_String_with_throws number_text : forall v e,
  js_String_with number_text v = Throw e -> e = TypeError.
Proof.
  fix IH 1. intros [ | | [] | x | s | t | | l | fs] e; cbn [js_String_with];
    try discriminate.
  - match goal with
    | |- match ?elements l with _ => _ end = _ -> _ =>
        assert (Hl : forall e', elements l = Throw e' -> e' = TypeError)
    end.
    { induction l as [|y l IHl]; intros e'; [discriminate|].
      pose proof (IH y) as IHy.
      destruct y as [ | | b | x | s | t | | l' | fs];
        try (destruct (_ l) as [ss|e0]; [discriminate|];
             intros [= <-]; now apply IHl).
      - destruct b; destruct (_ l) as [ss|e0]; try discriminate;
          intros [= <-]; now apply IHl.
      - destruct (js_String_with number_text (VArr l')) as [s|e0] eqn:Hy.
        + destruct (_ l) as [ss|e1]; [discriminate|]. intros [= <-]. now apply IHl.
        + intros [= <-]. exact (IHy _ eq_refl).
      - destruct (js_String_with number_text (VObj fs)) as [s|e0] eqn:Hy.
        + destruct (_ l) as [ss|e1]; [discriminate|]. intros [= <-]. now apply IHl.
        + intros [= <-]. exact (IHy _ eq_refl). }
    destruct (_ l) as [ss|e0]; [discriminate|]. intros [= <-]. now apply Hl.
  - destruct (assoc "toString" fs); [now intros [= <-] | discriminate].
Qed.

Lemma new_Date_throws v e : new_Date v = Throw e -> e = TypeError.
Proof.
  unfold new_Date, js_String.
  destruct v; try discriminate;
    destruct (js_String_with number_text _) as [s|e0] eqn:Hs; try discriminate;
    intros [= <-]; exact (js_String_with_throws _ _ _ Hs).
Qed.

Lemma utils_notify_incomplete env data w :
  own_property "feed" data = None
  \/ (exists feed video,
        own_property "feed" data = Some feed
        /\ truthy (default VUndefined (own_property "at:deleted-entry" feed)) = false
        /\ own_property "entry" feed = Some video
        /\ truthy video = true
        /\ (own_property "link" video = None \/ own_property "author" video = None)) ->
  Utils.notify env data w = (Throw TypeError, w).
Proof.
  intros [Hfeed | (feed & video & Hfeed & Hmarker & Hentry & Hvideo & Hmissing)].
  - unfold Utils.notify. unfold bind at 1, lift at 1.
    destruct data; try reflexivity; cbn [js_get]; rewrite Hfeed; reflexivity.
  - unfold Utils.notify. rewrite (js_get_present _ _ _ Hfeed).
    assert (Hget : forall k, js_get k feed = Ok (field k feed))
      by (intros k; destruct feed; try discriminate Hentry; reflexivity).
    assert (Hvid : field "entry" feed = video) by (unfold field; now rewrite Hentry).
    fold (field "at:deleted-entry" feed) in Hmarker.
    unfold bind, lift. cbv beta iota.
    rewrite !Hget. cbv beta iota. rewrite Hmarker, Hvid, Hvideo. cbn [negb].
    rewrite !(js_get_truthy _ _ Hvideo). cbv beta iota.
    destruct (new_Date (field "published" video)) as [published|e] eqn:Hpublished;
      [|now rewrite (new_Date_throws _ _ Hpublished)].
    destruct (new_Date (field "updated" video)) as [updated|e] eqn:Hupdated;
      [|now rewrite (new_Date_throws _ _ Hupdated)].
    destruct (js_get "@_href" (field "link" video)) as [link|e] eqn:Hlink;
      [|now rewrite (js_get_throws _ _ _ Hlink)].
    destruct Hmissing as [Hnone | Hnone].
    + unfold field in Hlink. rewrite Hnone in Hlink. discriminate Hlink.
    + unfold field at 1. rewrite Hnone. reflexivity.
Qed.

(** X23: the route [POST /callback] of [part_001] reads the parsed document
    without a schema.  A document without a [feed], or an entry without a
    [link] or without an [author], makes it throw a [TypeError]; [onError]
    posts one report to the webhook and answers [Something went wrong] with
    the status 200.  No notification is sent and the store is not
    touched. *)
Theorem utils_push_incomplete env xml s w data :
  s <> EmptyString ->
  XMLParser_parse true xml = Ok data ->
  own_property "feed" data = None
  \/ (exists feed video,
        own_property "feed" data = Some feed
        /\ truthy (default VUndefined (own_property "at:deleted-entry" feed)) = false
        /\ own_property "entry" feed = Some video
        /\ truthy video = true
        /\ (own_property "link" video = None \/ own_property "author" video = None)) ->
  Utils.post_callback env xml (Some s) w = (Throw TypeError, w)
  /\ exists report,
       let r := discord_request (DISCORD_WEBHOOK_URL env) report in
       Utils.app_post_callback env xml (Some s) w =
         (match fetch_outcome (ticks w) r with
          | NetworkFailure => Throw (PlatformError "fetch")
          | Response _ => Ok (json_response 200 "Something went wrong")
          end, after_fetch r w).
Proof.
  intros Hs Hparse Hdata.
  assert (Hroute : Utils.post_callback env xml (Some s) w = (Throw TypeError, w)).
  { destruct s as [|c s]; [contradiction|].
    rewrite utils_post_callback_unverified. unfold bind, lift. rewrite Hparse.
    exact (utils_notify_incomplete env data w Hdata). }
  split; [exact Hroute|].
  exists ("Encountered an Error" +:+ LF +:+ error_stack TypeError). cbn zeta.
  unfold Utils.app_post_callback. rewrite Hroute.
  unfold bind. rewrite utils_discordLog_eq.
  destruct (fetch_outcome (ticks w) _); reflexivity.
Qed.
End UtilsIncomplete.

(** ** What the route of [utils.ts] forwards *)

Section UtilsForwards.
Context `{Platform}.

(** X24: the route of [utils.ts] validates no field of an entry.  Whenever
    the feed has no truthy deletion marker and a truthy entry whose [link]
    and [author] are there, and [new Date] takes its two dates, the fields
    go to [dedent] as they are: a missing title as [undefined], the time
    of a date that does not parse as [NaN], a link without [@_href] as the
    text [*Link unavailable*].  What [dedent] makes of them is posted to
    the webhook, once, and the answer is [OK] whatever status the webhook
    returns; when [dedent] throws, the route throws and nothing is sent. *)
Theorem utils_notify_forwards env data feed video published updated w :
  own_property "feed" data = Some feed ->
  truthy (field "at:deleted-entry" feed) = false ->
  own_property "entry" feed = Some video ->
  truthy video = true ->
  field "link" video <> VUndefined -> field "link" video <> VNull ->
  field "author" video <> VUndefined -> field "author" video <> VNull ->
  new_Date (field "published" video) = Ok published ->
  new_Date (field "updated" video) = Ok updated ->
  Utils.notify env data w =
    match dedent Utils.message_template (utils_values video published updated) with
    | Throw e => (Throw e, w)
    | Ok message =>
        let r := discord_request (DISCORD_WEBHOOK_URL env) message in
        (match fetch_outcome (ticks w) r with
         | NetworkFailure => Throw (PlatformError "fetch")
         | Response _ => Ok (text_response 200 "OK")
         end, after_fetch r w)
    end.
Proof.
  intros Hfeed Hmarker Hentry Hvideo Hlu Hln Hau Han Hpublished Hupdated.
  assert (Hget : forall k, js_get k feed = Ok (field k feed))
    by (intros k; destruct feed; try discriminate Hentry; reflexivity).
  assert (Hvid : field "entry" feed = video) by (unfold field; now rewrite Hentry).
  unfold Utils.notify. rewrite (js_get_present _ _ _ Hfeed).
  unfold bind, lift. cbv beta iota.
  rewrite !Hget. cbv beta iota. rewrite Hmarker, Hvid, Hvideo. cbn [negb].
  rewrite !(js_get_truthy _ _ Hvideo). cbv beta iota.
  rewrite Hpublished, Hupdated. cbv beta iota.
  rewrite (js_get_field "@_href" _ Hlu Hln),
    (js_get_field "name" _ Hau Han), (js_get_field "uri" _ Hau Han). cbv beta iota.
  unfold Utils.sendDiscordNotification, Utils.message_values.
  cbn [Utils.video_id Utils.video_title Utils.video_link Utils.channel_id
       Utils.channel_name Utils.channel_link Utils.published Utils.updated].
  fold (utils_values video published updated).
  unfold bind, lift.
  destruct (dedent _ _) as [message|e]; [|reflexivity].
  rewrite utils_discordLog_eq. cbn zeta.
  destruct (fetch_outcome (ticks w) _); reflexivity.
Qed.
End UtilsForwards.

(** ** A number too large for a double *)

(** Why the statements about a list that is written and read again are
    about numbers [JSON.stringify] writes as they are.  [remove] of [lib.ts]
    of [c1] from the registry [lib_overflow] writes the entry of [c2] with
    [null] where the infinity was, and [listAll] reads that; the route of
    [utils.ts] answers with the empty list once a list with such a time was
    written. *)
Lemma overflow_is_not_read_back :
  let Q := toy_platform VNull (fun _ => Response 204) in
  let w := snd (@Lib.removeSubscription Q toy_env "c1" (lib_world lib_overflow)) in
  let l := [{| Utils.channelId := "c0"; Utils.lastSubscribedAt := PosInfinity |}] in
  Array_filter (channelId_is_not "c1")
    [VObj [("channelId", VStr "c1"); ("lastSubscribed", VStr "100")];
     VObj [("channelId", VStr "c2"); ("lastSubscribed", VNum PosInfinity)]]
  = Ok [VObj [("channelId", VStr "c2"); ("lastSubscribed", VNum PosInfinity)]]
  /\ fst (Lib.getAllSubscriptions w)
     = Ok (VArr [VObj [("channelId", VStr "c2"); ("lastSubscribed", VNull)]])
  /\ fst (@UtilsRouter.get_subscriptions Q toy_env (Some "Bearer s3cret")
            (@utils_written Q l empty_world))
     = Ok (json_answer 200 (Jarr [])).
Proof. repeat split. Qed.

(** ** Examples of the statements above that have premises *)

Lemma utils_listAll_one_bad_entry_witness :
  let w := utils_world
             (Json (Jarr [Jobj [("channelId", Jstr "c1"); ("lastSubscribedAt", Jnum 100)];
                          Jobj [("channelId", Jstr "c2")]])) in
  exists w1,
    Utils.getAllSubscriptions w = (Ok [], w1)
    /\ KV w1 !! Utils.SUBSCRIPTION_KV_KEY = None
    /\ fst (Utils.getAllSubscriptions w1) = Ok [].
Proof.
  intros w.
  apply (utils_listAll_one_bad_entry w
           [Jobj [("channelId", Jstr "c1"); ("lastSubscribedAt", Jnum 100)];
            Jobj [("channelId", Jstr "c2")]]
           (Jobj [("channelId", Jstr "c2")])).
  - reflexivity.
  - apply list_elem_of_In. right. left. reflexivity.
  - reflexivity.
Defined.

Lemma utils_addSubscription_twice_witness :
  let P := toy_platform VNull (fun _ => Response 204) in
  let w2 := snd (@Utils.addSubscription P toy_env "c4" (utils_world utils_three)) in
  exists w3,
    @Utils.addSubscription P toy_env "c4" w2 = (Ok tt, w3)
    /\ KV w3 = KV w2 /\ sent w3 = sent w2.
Proof.
  intros P w2.
  apply (@utils_addSubscription_twice P toy_env "c4" (utils_world utils_three) three
           (tick (utils_world utils_three)) w2); reflexivity.
Defined.

Lemma utils_removeSubscription_then_list_witness :
  let P := toy_platform VNull (fun _ => Response 204) in
  let rest := [{| Utils.channelId := "c2"; Utils.lastSubscribedAt := 200 |};
               {| Utils.channelId := "c3"; Utils.lastSubscribedAt := 300 |}] in
  exists w2 w3,
    @Utils.removeSubscription P toy_env "c1" (utils_world utils_three) = (Ok tt, w2)
    /\ Utils.getAllSubscriptions w2 = (Ok rest, w3)
    /\ ("c1" ∉ utils_channels rest).
Proof.
  intros P rest.
  apply (@utils_removeSubscription_then_list P toy_env "c1" (utils_world utils_three)
           ({| Utils.channelId := "c1"; Utils.lastSubscribedAt := 100 |} :: rest)
           (tick (utils_world utils_three)) 204).
  - reflexivity.
  - reflexivity.
  - apply list_elem_of_In. left. reflexivity.
  - reflexivity.
  - reflexivity.
Defined.

Lemma removeSubscription_absent_witness :
  let P := toy_platform VNull (fun _ => Response 204) in
  (@Utils.removeSubscription P toy_env "c4" (utils_world utils_three)
   = (Ok tt, tick (utils_world utils_three))
   /\ sent (tick (utils_world utils_three)) = sent (utils_world utils_three)
   /\ KV (tick (utils_world utils_three)) = KV (utils_world utils_three))
  /\ (@Lib.removeSubscription P toy_env "c4" (lib_world lib_three)
      = (Ok tt, tick (lib_world lib_three))
      /\ sent (tick (lib_world lib_three)) = sent (lib_world lib_three)
      /\ KV (tick (lib_world lib_three)) = KV (lib_world lib_three)).
Proof.
  intros P. split.
  - destruct (proj1 (@removeSubscription_absent P toy_env "c4" (utils_world utils_three))
                three (tick (utils_world utils_three))) as (Hremove & Hsent & _).
    + reflexivity.
    + intros Hin. apply list_elem_of_In in Hin. vm_compute in Hin.
      destruct Hin as [Hin|[Hin|[Hin|[]]]]; discriminate Hin.
    + split; [exact Hremove|]. split; [exact Hsent | reflexivity].
  - apply (proj2 (@removeSubscription_absent P toy_env "c4" (lib_world lib_three))
             [VObj [("channelId", VStr "c1"); ("lastSubscribed", VStr "100")];
              VObj [("channelId", VStr "c2"); ("lastSubscribed", VStr "200")];
              VObj [("channelId", VStr "c3"); ("lastSubscribed", VStr "300")]]).
    + reflexivity.
    + reflexivity.
Defined.

Lemma utils_add_then_remove_witness :
  let P := toy_platform VNull (fun _ => Response 204) in
  exists w2,
    (@Utils.addSubscription P toy_env "c4" ;; @Utils.removeSubscription P toy_env "c4")
      (utils_world utils_three) = (Ok tt, w2)
    /\ fst (Utils.getAllSubscriptions w2) = Ok three.
Proof.
  intros P.
  apply (@utils_add_then_remove P toy_env "c4" (utils_world utils_three) _
           (tick (utils_world utils_three))).
  - intros n r. exists 204. split; reflexivity.
  - reflexivity.
  - reflexivity.
  - intros Hin. apply list_elem_of_In in Hin. vm_compute in Hin.
    destruct Hin as [Hin|[Hin|[Hin|[]]]]; discriminate Hin.
Defined.

Lemma utils_channels_stay_unique_witness :
  let P := toy_platform VNull (fails_at 1) in
  (exists l', fst (Utils.getAllSubscriptions
                     (snd (@Utils.addSubscription P toy_env "c4" (utils_world utils_three))))
              = Ok l' /\ NoDup (utils_channels l'))
  /\ (exists l', fst (Utils.getAllSubscriptions
                        (snd (@Utils.removeSubscription P toy_env "c4"
                                (utils_world utils_three))))
                 = Ok l' /\ NoDup (utils_channels l'))
  /\ (exists l', fst (Utils.getAllSubscriptions
                        (snd (@Utils.renewSubscriptionCronWorker P toy_env
                                (utils_world utils_three))))
                 = Ok l' /\ NoDup (utils_channels l')).
Proof.
  intros P.
  apply (@utils_channels_stay_unique P toy_env "c4" (utils_world utils_three) three
           (tick (utils_world utils_three))).
  - reflexivity.
  - apply NoDup_ListNoDup. cbn [utils_channels three map Utils.channelId].
    repeat (constructor; [cbn [In]; intuition discriminate|]). constructor.
Defined.


Lemma lib_removeSubscription_then_list_witness :
  let P := toy_platform VNull (fun _ => Response 204) in
  let rest := [VObj [("channelId", VStr "c2"); ("lastSubscribed", VStr "200")];
               VObj [("channelId", VStr "c3"); ("lastSubscribed", VStr "300")]] in
  exists w2 w3,
    @Lib.removeSubscription P toy_env "c1" (lib_world lib_three) = (Ok tt, w2)
    /\ Lib.getAllSubscriptions w2 = (Ok (VArr rest), w3)
    /\ Array_find (channelId_is "c1") rest = Ok VUndefined.
Proof.
  intros P rest.
  apply (@lib_removeSubscription_then_list P toy_env "c1" (lib_world lib_three)
           (VObj [("channelId", VStr "c1"); ("lastSubscribed", VStr "100")] :: rest)
           (tick (lib_world lib_three))
           (VObj [("channelId", VStr "c1"); ("lastSubscribed", VStr "100")]) rest 204).
  - reflexivity.
  - reflexivity.
  - reflexivity.
  - discriminate.
  - reflexivity.
  - reflexivity.
  - reflexivity.
Defined.

Lemma lib_registry_not_an_array_witness :
  let P := toy_platform VNull (fun _ => Response 204) in
  let w := lib_world (Json (Jobj [("c1", Jstr "2024-01-01T00:00:00Z")])) in
  @Lib.addSubscription P toy_env "c1" w = (Throw TypeError, tick w)
  /\ @Lib.removeSubscription P toy_env "c1" w = (Throw TypeError, tick w)
  /\ KV (tick w) !! "subscriptions" = Some (Json (Jobj [("c1", Jstr "2024-01-01T00:00:00Z")]))
  /\ sent (tick w) = sent w.
Proof.
  intros P w.
  apply (@lib_registry_not_an_array P toy_env "c1" w).
  - reflexivity.
  - discriminate.
Defined.

Lemma lib_callback_never_forwards_witness :
  let P := toy_platform (document (parsed_entry link_node)) (fun _ => Response 204) in
  snd (@Lib.callback P toy_env example_xml (Some example_signature) empty_world) = empty_world
  /\ @Lib.post_callback P toy_env example_xml (Some example_signature) empty_world
     = (Ok (text_response 200 "OK"), empty_world).
Proof.
  intros P.
  destruct (@lib_callback_never_forwards P toy_env example_xml (Some example_signature)
              empty_world) as [Hworld Hroute].
  - intros data [= <-]. reflexivity.
  - split; [exact Hworld|].
    apply (Hroute example_signature (document (parsed_entry link_node)));
      [reflexivity | discriminate | reflexivity | reflexivity].
Defined.

Lemma lib_callback_nothing_to_send_witness :
  let feed := VObj [("at:deleted-entry", VStr EmptyString); ("entry", VStr "no entry")] in
  let P := toy_platform (VObj [("feed", feed)]) (fun _ => Response 204) in
  Lib.callbackSchema (VObj [("feed", feed)]) = Some None
  /\ @Lib.callback P toy_env "body" (Some ("sha256=" +:+ toy_D)) empty_world
     = (Ok tt, empty_world).
Proof.
  intros feed P.
  apply (@lib_callback_nothing_to_send P toy_env "body" ("sha256=" +:+ toy_D) empty_world
           (VObj [("feed", feed)]) feed).
  - discriminate.
  - reflexivity.
  - reflexivity.
  - reflexivity.
  - reflexivity.
  - reflexivity.
  - left. discriminate.
Defined.

Lemma utils_notify_nothing_to_send_witness :
  let P := toy_platform VNull (fun _ => Response 204) in
  @Utils.notify P toy_env (VObj [("feed", VObj [("title", VStr "a feed")])]) empty_world
  = (Ok (text_response 200 "OK"), empty_world).
Proof.
  intros P.
  apply (@utils_notify_nothing_to_send P toy_env _ (VObj [("title", VStr "a feed")])).
  - reflexivity.
  - discriminate.
  - discriminate.
  - right. reflexivity.
Defined.

Lemma api_routes_unauthorized_witness :
  let P := toy_platform VNull (fun _ => Response 204) in
  let w := utils_world utils_three in
  @LibRouter.get_subscriptions P toy_env (Some "Bearer s3cre") w = (Ok unauthorized, w)
  /\ @LibRouter.post_subscribe P toy_env (Some "Bearer s3cre") "c4" w = (Ok unauthorized, w)
  /\ @LibRouter.post_unsubscribe P toy_env (Some "Bearer s3cre") "c4" w = (Ok unauthorized, w)
  /\ @LibRouter.post_force_renew P toy_env (Some "Bearer s3cre") w = (Ok unauthorized, w)
  /\ @UtilsRouter.get_subscriptions P toy_env (Some "Bearer s3cre") w = (Ok unauthorized, w)
  /\ @UtilsRouter.post_subscribe P toy_env (Some "Bearer s3cre") "c4" w = (Ok unauthorized, w)
  /\ @UtilsRouter.post_unsubscribe P toy_env (Some "Bearer s3cre") "c4" w
     = (Ok unauthorized, w).
Proof.
  intros P w.
  apply (@api_routes_unauthorized P toy_env (Some "Bearer s3cre") "c4" w).
  discriminate.
Defined.

Lemma subscriptions_route_answers_witness :
  let P := toy_platform VNull (fun _ => Response 204) in
  @UtilsRouter.get_subscriptions P toy_env (Some "Bearer s3cret")
    (@utils_written P three empty_world)
  = (Ok (json_answer 200
           (Jarr [Jobj [("channelId", Jstr "c1"); ("lastSubscribedAt", Jnum 100)];
                  Jobj [("channelId", Jstr "c2"); ("lastSubscribedAt", Jnum 200)];
                  Jobj [("channelId", Jstr "c3"); ("lastSubscribedAt", Jnum 300)]])),
     tick (@utils_written P three empty_world)).
Proof.
  intros P.
  exact (proj2 (@subscriptions_route_answers P toy_env three empty_world) eq_refl).
Defined.


Lemma utils_push_incomplete_witness :
  let P := toy_platform (document (authorless_entry link_node_with_attributes))
             (fun _ => Response 204) in
  @Utils.post_callback P toy_env example_xml (Some "sha-256=00") empty_world
  = (Throw TypeError, empty_world)
  /\ exists report,
       @Utils.app_post_callback P toy_env example_xml (Some "sha-256=00") empty_world =
         (Ok (json_response 200 "Something went wrong"),
          after_fetch (@discord_request P (DISCORD_WEBHOOK_URL toy_env) report) empty_world).
Proof.
  intros P.
  apply (@utils_push_incomplete P toy_env example_xml "sha-256=00" empty_world
           (document (authorless_entry link_node_with_attributes))).
  - discriminate.
  - reflexivity.
  - right. exists (VObj [("entry", authorless_entry link_node_with_attributes)]),
      (authorless_entry link_node_with_attributes).
    repeat split. right. reflexivity.
Defined.

Lemma utils_notify_forwards_witness :
  let video := untitled_entry link_node in
  let P := toy_platform (document video) (fun _ => Response 500) in
  let message := join LF ["New video from [A](http://a)";
                          "**undefined**";
                          "*Link unavailable*";
                          EmptyString;
                          "Published at <t:1704067200:f>";
                          "Updated at <t:1704153600:f>"] in
  @dedent P Utils.message_template
    (utils_values video (Some 1704067200000) (Some 1704153600000)) = Ok message
  /\ @Utils.notify P toy_env (document video) empty_world =
       (Ok (text_response 200 "OK"),
        after_fetch (@discord_request P (DISCORD_WEBHOOK_URL toy_env) message) empty_world).
Proof.
  intros video P message. split; [reflexivity|].
  apply (@utils_notify_forwards P toy_env (document video) (VObj [("entry", video)]) video
           (Some 1704067200000) (Some 1704153600000) empty_world);
    try reflexivity; discriminate.
Defined.
